(** * SwiftGRIB validation scripts: a shallow embedding

    The repository's four Python scripts are embedded module by module:

    - [Comparator]: [compare_values] and [main] of [compare_outputs.py], over
      Python's numbers: unbounded integers and IEEE binary64 floats (Rocq's
      primitive floats are Python's [float]: subtraction, [abs] and the
      comparisons are the same operations bit for bit);
    - [Payload]: [load_json] of [compare_outputs.py] and
      [verify_wind_direction.py];
    - [Extractor]: the per-message record built by [compare_pygrib.py];
    - [Wind]: [calc_wind_direction] and the compass ladder of
      [check_wind.py], over real numbers extended with a negative zero,
      since [arctan2] and [sqrt] have no bit-exact counterpart here;
    - [Table]: the table of the first ten grid points of [check_wind.py];
    - [Search]: the loops of [check_wind.py] and [verify_wind_direction.py]
      that look for the first U and V messages. *)

From Stdlib Require Import String Ascii List Bool Arith ZArith Lia DecimalString.
From Stdlib Require Import Floats.
From Stdlib Require Import Reals Lra.
From Stdlib Require DecimalPos DecimalZ.
Import ListNotations.

Set Warnings "-inexact-float".

(** ** Python values and exceptions shared by the scripts *)

Inductive exn : Type :=
| KeyError (key : string)
| TypeError
| IndexError
| ValueError
| JSONDecodeError.

Inductive result (A : Type) : Type :=
| Ok (a : A)
| Raise (e : exn).
Arguments Ok {A} a.
Arguments Raise {A} e.

Definition rbind {A B : Type} (r : result A) (k : A -> result B) : result B :=
  match r with
  | Ok a => k a
  | Raise e => Raise e
  end.

(** *** Numbers

    A Python number is an [int] (unbounded) or a [float] (binary64).
    [json.loads] gives an [int] to a literal without fraction or exponent
    and a [float] to every other one, [NaN] and [Infinity] included. *)
Inductive pynum : Type :=
| PInt (n : Z)
| PFloat (x : float).

(** [float(n)]: round to nearest even.  Python raises [OverflowError] from
    [2^1024] on, where this conversion gives an infinity; no integer of
    that size is in reach of the scripts. *)
Definition Z2F (n : Z) : float :=
  SF2Prim (binary_normalize prec emax n 0 false).

Definition to_float (a : pynum) : float :=
  match a with
  | PInt n => Z2F n
  | PFloat x => x
  end.

(** [a - b]: exact on two integers, binary64 otherwise. *)
Definition py_sub (a b : pynum) : pynum :=
  match a, b with
  | PInt m, PInt n => PInt (m - n)
  | _, _ => PFloat (to_float a - to_float b)
  end.

Definition py_abs (a : pynum) : pynum :=
  match a with
  | PInt n => PInt (Z.abs n)
  | PFloat x => PFloat (PrimFloat.abs x)
  end.

Definition of_comparison (c : comparison) : float_comparison :=
  match c with
  | Eq => FEq
  | Lt => FLt
  | Gt => FGt
  end.

Definition flip_comparison (c : float_comparison) : float_comparison :=
  match c with
  | FLt => FGt
  | FGt => FLt
  | c => c
  end.

(** Python compares an [int] with a [float] by value, without rounding the
    integer. *)
Definition Zcompare_SF (n : Z) (f : spec_float) : float_comparison :=
  match f with
  | S754_nan => FNotComparable
  | S754_infinity s => if s then FGt else FLt
  | S754_zero _ => of_comparison (n ?= 0)%Z
  | S754_finite s m e =>
      let v := if s then Zneg m else Zpos m in
      of_comparison
        (if (0 <=? e)%Z then (n ?= v * 2 ^ e)%Z else (n * 2 ^ (- e) ?= v)%Z)
  end.

Definition py_compare (a b : pynum) : float_comparison :=
  match a, b with
  | PInt m, PInt n => of_comparison (m ?= n)%Z
  | PFloat x, PFloat y => (x ?= y)%float
  | PInt m, PFloat y => Zcompare_SF m (Prim2SF y)
  | PFloat x, PInt n => flip_comparison (Zcompare_SF n (Prim2SF x))
  end.

(** [a > b], [a < b], [a <= b], [a == b]: all false on a NaN operand. *)
Definition py_gt (a b : pynum) : bool :=
  match py_compare a b with FGt => true | _ => false end.
Definition py_lt (a b : pynum) : bool :=
  match py_compare a b with FLt => true | _ => false end.
Definition py_num_eq (a b : pynum) : bool :=
  match py_compare a b with FEq => true | _ => false end.

Definition is_nan (a : pynum) : bool :=
  match a with
  | PInt _ => false
  | PFloat x => PrimFloat.is_nan x
  end.

(** *** Records

    A record is one JSON object of the payload: a Python [dict] with string
    keys, kept as an association list in insertion order.  Its values are
    the shapes the extractors print: [null], numbers, strings, arrays of
    numbers and (for [spotValues]) an object of numbers.  Keys and names
    are Rocq strings, one character per code point. *)
Inductive pyval : Type :=
| VNone
| VNum (a : pynum)
| VStr (s : string)
| VList (l : list pynum)
| VDict (d : list (string * pynum)).

Definition record : Type := list (string * pyval).

Fixpoint lookup {A : Type} (key : string) (d : list (string * A)) : option A :=
  match d with
  | [] => None
  | (k, v) :: rest => if String.eqb k key then Some v else lookup key rest
  end.

(** [key in d] *)
Definition contains (key : string) (d : record) : bool :=
  match lookup key d with
  | Some _ => true
  | None => false
  end.

(** [d[key]] *)
Definition getitem (d : record) (key : string) : result pyval :=
  match lookup key d with
  | Some v => Ok v
  | None => Raise (KeyError key)
  end.

(** [d.get(key, default)]; [d.get(key)] is [get d key VNone]. *)
Definition get (d : record) (key : string) (default : pyval) : pyval :=
  match lookup key d with
  | Some v => v
  | None => default
  end.

Fixpoint list_eq (l1 l2 : list pynum) : bool :=
  match l1, l2 with
  | [], [] => true
  | a :: r1, b :: r2 => py_num_eq a b && list_eq r1 r2
  | _, _ => false
  end.

(** [v == w].  Values of different kinds are unequal; two dicts are equal
    when they hold the same keys with equal values. *)
Definition py_eq (v w : pyval) : bool :=
  match v, w with
  | VNone, VNone => true
  | VNum a, VNum b => py_num_eq a b
  | VStr s, VStr t => String.eqb s t
  | VList l1, VList l2 => list_eq l1 l2
  | VDict d1, VDict d2 =>
      (List.length d1 =? List.length d2)%nat
      && forallb (fun kv =>
                    match lookup (fst kv) d2 with
                    | Some b => py_num_eq (snd kv) b
                    | None => false
                    end) d1
  | _, _ => false
  end.

Definition py_ne (v w : pyval) : bool := negb (py_eq v w).

(** The operand of an arithmetic operator: anything but a number raises
    [TypeError]. *)
Definition as_num (v : pyval) : result pynum :=
  match v with
  | VNum a => Ok a
  | _ => Raise TypeError
  end.

(** A value array handed to [compare_values]. *)
Definition as_list (v : pyval) : result (list pynum) :=
  match v with
  | VList l => Ok l
  | _ => Raise TypeError
  end.

(** [name[:30]] under the format [:30]: only a string goes through. *)
Definition name30 (v : pyval) : result string :=
  match v with
  | VStr s => Ok (substring 0 30 s)
  | _ => Raise TypeError
  end.

Module Comparator.

(** *** [compare_values] (compare_outputs.py, lines 30-49) *)

(** The second component of the returned pair is an f-string; it is kept as
    the tuple of its format arguments, one constructor per template. *)
Inductive summary : Type :=
| LengthMismatch (len_pygrib len_swift : nat)
    (* "Length mismatch: {} vs {}" *)
| ValuesDiffer (max_diff : pynum) (max_diff_idx : nat) (ndiffs : nat)
    (* "Max diff {:.10f} at index {}, {} values differ" *)
| MaxDiff (max_diff : pynum).
    (* "Max diff {:.10e}" *)

(** The three locals the loop updates. *)
Record scan : Type := mkScan {
  max_diff : pynum;
  max_diff_idx : nat;
  diffs : list (nat * pynum * pynum * pynum)
}.

Definition scan_init : scan :=
  {| max_diff := PInt 0; max_diff_idx := 0%nat; diffs := [] |}.

(** One iteration of the loop body, lines 40-45. *)
Definition scan_step (tolerance : pynum) (st : scan) (i : nat) (pv sv : pynum)
  : scan :=
  let diff := py_abs (py_sub pv sv) in
  let st1 :=
    if py_gt diff (max_diff st)
    then {| max_diff := diff; max_diff_idx := i; diffs := diffs st |}
    else st in
  if py_gt diff tolerance
  then {| max_diff := max_diff st1; max_diff_idx := max_diff_idx st1;
          diffs := diffs st1 ++ [(i, pv, sv, diff)] |}
  else st1.

(** [for i, (pv, sv) in enumerate(zip(pygrib_vals, swift_vals))]. *)
Fixpoint scan_loop (tolerance : pynum) (i : nat)
  (pygrib_vals swift_vals : list pynum) (st : scan) : scan :=
  match pygrib_vals, swift_vals with
  | pv :: ps, sv :: ss =>
      scan_loop tolerance (S i) ps ss (scan_step tolerance st i pv sv)
  | _, _ => st
  end.

Definition default_tolerance : pynum := PFloat 1e-6.

Definition compare_values (pygrib_vals swift_vals : list pynum)
  (tolerance : pynum) : bool * summary :=
  if negb (List.length pygrib_vals =? List.length swift_vals)%nat
  then (false, LengthMismatch (List.length pygrib_vals) (List.length swift_vals))
  else
    let st := scan_loop tolerance 0 pygrib_vals swift_vals scan_init in
    match diffs st with
    | [] => (true, MaxDiff (max_diff st))
    | _ :: _ =>
        (false,
         ValuesDiffer (max_diff st) (max_diff_idx st) (List.length (diffs st)))
    end.

(** The elementwise difference of line 40, the test of line 44, and the
    test the specification words as "at most the tolerance". *)
Definition abs_diff (pv sv : pynum) : pynum := py_abs (py_sub pv sv).



(** *** What the run records and prints *)

(** An entry of [issues], by f-string template. *)
Inductive issue : Type :=
| ValuesMismatch (msg_num : nat) (parameterName : pyval) (detail : summary)
    (* "Msg {} ({}): {detail}" *)
| SampleMismatch (msg_num : nat)
    (* "Msg {}: first10/last10 mismatch" *)
| MinDiffers (msg_num : nat) (pg_min sg_min : pynum)
| MaxDiffers (msg_num : nat) (pg_max sg_max : pynum)
| MeanDiffers (msg_num : nat) (pg_mean sg_mean : pynum)
| GridSizeDiffers (msg_num : nat)
| ParameterIdDiffers (msg_num : nat) (pg_id sg_id : pyval).

(** The dict [issues] of lines 69-74. *)
Record issues : Type := mkIssues {
  values : list issue;
  metadata : list issue;
  grid : list issue;
  time : list issue
}.

Definition no_issues : issues :=
  {| values := []; metadata := []; grid := []; time := [] |}.

Inductive category : Type := Values | Metadata | Grid | Time.

Definition items (c : category) (iss : issues) : list issue :=
  match c with
  | Values => values iss
  | Metadata => metadata iss
  | Grid => grid iss
  | Time => time iss
  end.

Definition append_issue (c : category) (i : issue) (iss : issues) : issues :=
  match c with
  | Values => {| values := values iss ++ [i]; metadata := metadata iss;
                 grid := grid iss; time := time iss |}
  | Metadata => {| values := values iss; metadata := metadata iss ++ [i];
                   grid := grid iss; time := time iss |}
  | Grid => {| values := values iss; metadata := metadata iss;
               grid := grid iss ++ [i]; time := time iss |}
  | Time => {| values := values iss; metadata := metadata iss;
               grid := grid iss; time := time iss ++ [i] |}
  end.

(** Total number of recorded discrepancies. *)
Definition issue_count (iss : issues) : nat :=
  List.length (values iss) + List.length (metadata iss)
  + List.length (grid iss) + List.length (time iss).

(** The match column: a tick, a cross, or "N/A". *)
Inductive mark : Type := Tick | Cross | NotAvailable.

(** One [print] call, by template. *)
Inductive line : Type :=
| Banner (title : string)                       (* rule, title, rule *)
| MessageCounts (n_pygrib n_swift : nat)
| CountMismatchError                            (* "ERROR: Message count mismatch!" *)
| Comparing (n : nat)
| FailValues (msg_num : nat)                    (* "[FAIL] Message {}: VALUES MISMATCH" *)
| FailParameter (parameterName : pyval)
| FailDetail (detail : summary)
| FirstFiveHeader
| FirstFiveRow (j : nat) (pv sv diff : pynum) (status : mark)
| Blank
| OkValues (msg_num : nat) (name : string) (detail : summary)
| FailSample (msg_num : nat) (name : string)
| First10Detail (detail : summary)
| Last10Detail (detail : summary)
| OkSample (msg_num : nat) (name : string)
| VerdictAllMatch                               (* "ALL VALUES MATCH! ..." *)
| VerdictDiscrepancies                          (* "DISCREPANCIES FOUND" *)
| CategoryHeader (c : category) (count : nat)
| IssueItem (i : issue)
| AndMore (remaining : nat)
| TableHeader
| FieldRow (label : string) (pv sv : pyval) (matched : mark)
| ValuesTableHeader
| ValueRow (j : nat) (pv sv diff : pynum) (matched : mark).

(** The state of a run of [main]: standard output so far, [issues] and
    [all_match]. *)
Record run : Type := mkRun {
  out : list line;
  found : issues;
  all_match : bool
}.

Definition run_init : run :=
  {| out := []; found := no_issues; all_match := true |}.

(** A command reads and updates the run and either returns or raises; what
    was printed before an exception stays printed. *)
Definition M (A : Type) : Type := run -> run * result A.

Definition ret {A : Type} (a : A) : M A := fun st => (st, Ok a).

Definition bind {A B : Type} (m : M A) (k : A -> M B) : M B :=
  fun st =>
    match m st with
    | (st', Ok a) => k a st'
    | (st', Raise e) => (st', Raise e)
    end.

Definition lift {A : Type} (r : result A) : M A := fun st => (st, r).

Definition print (l : line) : M unit :=
  fun st => ({| out := out st ++ [l]; found := found st;
                all_match := all_match st |}, Ok tt).

Definition record_issue (c : category) (i : issue) : M unit :=
  fun st => ({| out := out st; found := append_issue c i (found st);
                all_match := all_match st |}, Ok tt).

Definition clear_all_match : M unit :=
  fun st => ({| out := out st; found := found st; all_match := false |}, Ok tt).

Definition get_run : M run := fun st => (st, Ok st).

Declare Scope run_scope.
Delimit Scope run_scope with run.
Notation "x <- m ;; k" := (bind m (fun x => k))
  (at level 61, m at next level, right associativity) : run_scope.
Notation "m ;; k" := (bind m (fun _ => k))
  (at level 61, right associativity) : run_scope.
Local Open Scope run_scope.

Definition when (b : bool) (m : M unit) : M unit := if b then m else ret tt.

(** [for x in xs: body x], with the position of [x] passed along. *)
Fixpoint for_each {A : Type} (i : nat) (xs : list A) (body : nat -> A -> M unit)
  : M unit :=
  match xs with
  | [] => ret tt
  | x :: rest => body i x ;; for_each (S i) rest body
  end.

(** [l[j]] for [j >= 0]. *)
Definition index {A : Type} (l : list A) (j : nat) : result A :=
  match nth_error l j with
  | Some a => Ok a
  | None => Raise IndexError
  end.

Definition value_tolerance : pynum := PFloat 1e-6.
Definition mean_tolerance : pynum := PFloat 1e-4.

(** The tick of lines 100, 209 and 228: [diff < 1e-6]. *)
Definition close_mark (diff : pynum) : mark :=
  if py_lt diff value_tolerance then Tick else Cross.

(** [for j in range(n): body j] *)
Definition for_range (n : nat) (body : nat -> M unit) : M unit :=
  for_each 0 (seq 0 n) (fun _ j => body j).

(** *** [main], the comparison pass (lines 78-135) *)

(** Lines 84-104: both records carry [allValues]. *)
Definition compare_all_values (msg_num : nat) (pg sg : record) : M unit :=
  pg_all <- lift (getitem pg "allValues") ;;
  sg_all <- lift (getitem sg "allValues") ;;
  pg_vals <- lift (as_list pg_all) ;;
  sg_vals <- lift (as_list sg_all) ;;
  let (matched, detail) := compare_values pg_vals sg_vals default_tolerance in
  if negb matched then
    clear_all_match ;;
    name <- lift (getitem pg "parameterName") ;;
    record_issue Values (ValuesMismatch msg_num name detail) ;;
    print (FailValues msg_num) ;;
    print (FailParameter name) ;;
    print (FailDetail detail) ;;
    print FirstFiveHeader ;;
    for_range (Nat.min 5 (List.length pg_vals)) (fun j =>
      pv <- lift (index pg_vals j) ;;
      sv <- lift (index sg_vals j) ;;
      let diff := abs_diff pv sv in
      print (FirstFiveRow j pv sv diff (close_mark diff))) ;;
    print Blank
  else
    name <- lift (getitem pg "parameterName") ;;
    shown <- lift (name30 name) ;;
    print (OkValues msg_num shown detail).

(** Lines 107-119: the head and tail samples. *)
Definition compare_samples (msg_num : nat) (pg sg : record) : M unit :=
  pg_first <- lift (getitem pg "first10") ;;
  sg_first <- lift (getitem sg "first10") ;;
  pg_f <- lift (as_list pg_first) ;;
  sg_f <- lift (as_list sg_first) ;;
  let (match1, detail1) := compare_values pg_f sg_f default_tolerance in
  pg_last <- lift (getitem pg "last10") ;;
  sg_last <- lift (getitem sg "last10") ;;
  pg_l <- lift (as_list pg_last) ;;
  sg_l <- lift (as_list sg_last) ;;
  let (match2, detail2) := compare_values pg_l sg_l default_tolerance in
  if negb (match1 && match2) then
    clear_all_match ;;
    record_issue Values (SampleMismatch msg_num) ;;
    name <- lift (getitem pg "parameterName") ;;
    shown <- lift (name30 name) ;;
    print (FailSample msg_num shown) ;;
    when (negb match1) (print (First10Detail detail1)) ;;
    when (negb match2) (print (Last10Detail detail2))
  else
    name <- lift (getitem pg "parameterName") ;;
    shown <- lift (name30 name) ;;
    print (OkSample msg_num shown).

(** One of lines 122-127: [abs(pg[key] - sg[key]) > tolerance]. *)
Definition compare_statistic (key : string) (tolerance : pynum)
  (describe : pynum -> pynum -> issue) (pg sg : record) : M unit :=
  pv <- lift (getitem pg key) ;;
  sv <- lift (getitem sg key) ;;
  a <- lift (as_num pv) ;;
  b <- lift (as_num sv) ;;
  when (py_gt (abs_diff a b) tolerance) (record_issue Values (describe a b)).

(** Lines 84-119: the value payload that both records carry, if any. *)
Definition compare_payload (msg_num : nat) (pg sg : record) : M unit :=
  if contains "allValues" pg && contains "allValues" sg
  then compare_all_values msg_num pg sg
  else if contains "first10" pg && contains "first10" sg
       then compare_samples msg_num pg sg
       else ret tt.

(** The condition of line 130. *)
Definition grid_differs (pg sg : record) : bool :=
  py_ne (get pg "Ni" VNone) (get sg "Ni" VNone)
  || py_ne (get pg "Nj" VNone) (get sg "Nj" VNone).

(** The condition of line 134. *)
Definition parameter_id_differs (pg sg : record) : bool :=
  py_ne (get pg "indicatorOfParameter" VNone)
        (get sg "indicatorOfParameter" VNone).

(** The body of the loop of line 78, for index [i]. *)
Definition compare_message (i : nat) (pg sg : record) : M unit :=
  let msg_num := S i in
  compare_payload msg_num pg sg ;;
  compare_statistic "min" value_tolerance (MinDiffers msg_num) pg sg ;;
  compare_statistic "max" value_tolerance (MaxDiffers msg_num) pg sg ;;
  compare_statistic "mean" mean_tolerance (MeanDiffers msg_num) pg sg ;;
  when (grid_differs pg sg) (record_issue Grid (GridSizeDiffers msg_num)) ;;
  when (parameter_id_differs pg sg)
       (record_issue Metadata
          (ParameterIdDiffers msg_num (get pg "indicatorOfParameter" VNone)
                                      (get sg "indicatorOfParameter" VNone))).

(** *** [main], the report (lines 137-229) *)

(** Lines 146-152, for one category. *)
Definition report_category (c : category) (iss : issues) : M unit :=
  match items c iss with
  | [] => ret tt
  | _ :: _ =>
      print (CategoryHeader c (List.length (items c iss))) ;;
      for_each 0 (firstn 10 (items c iss)) (fun _ item => print (IssueItem item)) ;;
      when (10 <? List.length (items c iss))%nat
           (print (AndMore (List.length (items c iss) - 10)))
  end.

Definition categories : list category := [Values; Metadata; Grid; Time].

(** Lines 141-152. *)
Definition report_verdict : M unit :=
  st <- get_run ;;
  if all_match st then print VerdictAllMatch
  else
    print VerdictDiscrepancies ;;
    for_each 0 categories (fun _ c => report_category c (found st)).

(** The table of lines 165-188: label and key. *)
Definition fields : list (string * string) :=
  [ ("parameterName", "parameterName");
    ("indicatorOfParameter", "indicatorOfParameter");
    ("level", "level");
    ("Ni (grid cols)", "Ni");
    ("Nj (grid rows)", "Nj");
    ("numValues", "numValues");
    ("min", "min");
    ("max", "max");
    ("mean", "mean");
    ("firstLat", "firstLat");
    ("firstLon", "firstLon");
    ("lastLat", "lastLat");
    ("lastLon", "lastLon");
    ("latitudeOfFirstGridPoint", "latitudeOfFirstGridPoint");
    ("longitudeOfFirstGridPoint", "longitudeOfFirstGridPoint");
    ("latitudeOfLastGridPoint", "latitudeOfLastGridPoint");
    ("longitudeOfLastGridPoint", "longitudeOfLastGridPoint");
    ("year", "year");
    ("month", "month");
    ("day", "day");
    ("hour", "hour");
    ("minute", "minute") ]%string.

Definition not_available : pyval := VStr "N/A".

(** Lines 206-211. *)
Definition field_mark (pv sv : pyval) : mark :=
  if py_eq pv not_available || py_eq sv not_available then NotAvailable
  else match pv, sv with
       | VNum a, VNum b => close_mark (abs_diff a b)
       | _, _ => if py_eq pv sv then Tick else Cross
       end.

(** Lines 190-213, one row. *)
Definition field_row (pg sg : record) (label key : string) : line :=
  let pv := get pg key not_available in
  let sv := get sg key not_available in
  FieldRow label pv sv (field_mark pv sv).

(** Lines 155-229. *)
Definition first_message_detail (pygrib_data swift_data : list record)
  : M unit :=
  print (Banner "FIRST MESSAGE DETAILED COMPARISON") ;;
  pg <- lift (index pygrib_data 0) ;;
  sg <- lift (index swift_data 0) ;;
  print TableHeader ;;
  for_each 0 fields (fun _ f => print (field_row pg sg (fst f) (snd f))) ;;
  print (Banner "FIRST 20 VALUES COMPARISON (Message 1)") ;;
  when (contains "allValues" pg && contains "allValues" sg)
    (print ValuesTableHeader ;;
     pg_all <- lift (getitem pg "allValues") ;;
     pg_vals <- lift (as_list pg_all) ;;
     for_range (Nat.min 20 (List.length pg_vals)) (fun j =>
       pv <- lift (index pg_vals j) ;;
       sg_all <- lift (getitem sg "allValues") ;;
       sg_vals <- lift (as_list sg_all) ;;
       sv <- lift (index sg_vals j) ;;
       let diff := abs_diff pv sv in
       print (ValueRow j pv sv diff (close_mark diff)))).

(** [main], from line 52 on; [pygrib_data] and [swift_data] are what the
    two calls of [load_json] returned. *)
Definition main (pygrib_data swift_data : list record) : M unit :=
  print (Banner "PYGRIB vs SWIFTGRIB DEEP COMPARISON") ;;
  print (MessageCounts (List.length pygrib_data) (List.length swift_data)) ;;
  if negb (List.length pygrib_data =? List.length swift_data)%nat
  then print CountMismatchError
  else
    print (Comparing (List.length pygrib_data)) ;;
    for_range (List.length pygrib_data) (fun i =>
      pg <- lift (index pygrib_data i) ;;
      sg <- lift (index swift_data i) ;;
      compare_message i pg sg) ;;
    print (Banner "SUMMARY") ;;
    report_verdict ;;
    first_message_detail pygrib_data swift_data.

(** The verdict lines a run printed (line 142 or line 144). *)
Definition is_verdict (l : line) : bool :=
  match l with
  | VerdictAllMatch | VerdictDiscrepancies => true
  | _ => false
  end.

Definition verdicts (st : run) : list line := filter is_verdict (out st).

End Comparator.

Module Payload.

(** *** [load_json] (compare_outputs.py lines 7-28, verify_wind_direction.py
    lines 7-22; the two bodies are the same) *)

(** A Python [str]: a sequence of Unicode code points. *)
Definition char : Type := N.
Definition text : Type := list char.

Definition newline : char := 10%N.
Definition open_bracket : char := 91%N.

(** The characters [str.strip()] removes: those for which [str.isspace]
    holds. *)
Definition is_space (c : char) : bool :=
  ((9 <=? c) && (c <=? 13)            (* \t \n \v \f \r *)
   || (28 <=? c) && (c <=? 32)        (* FS GS RS US and the space *)
   || (c =? 133) || (c =? 160)        (* NEL, no-break space *)
   || (c =? 5760)                     (* U+1680 *)
   || (8192 <=? c) && (c <=? 8202)    (* U+2000 .. U+200A *)
   || (c =? 8232) || (c =? 8233)      (* U+2028, U+2029 *)
   || (c =? 8239) || (c =? 8287)      (* U+202F, U+205F *)
   || (c =? 12288))%N.                (* U+3000 *)

Fixpoint lstrip (s : text) : text :=
  match s with
  | [] => []
  | c :: rest => if is_space c then lstrip rest else s
  end.

Definition rstrip (s : text) : text := rev (lstrip (rev s)).

(** [s.strip()] *)
Definition strip (s : text) : text := rstrip (lstrip s).

(** [content.split('\n')]: never empty, one more piece than newlines. *)
Fixpoint split (content : text) : list text :=
  match content with
  | [] => [[]]
  | c :: rest =>
      if (c =? newline)%N then [] :: split rest
      else match split rest with
           | [] => [[c]]
           | l :: ls => (c :: l) :: ls
           end
  end.

(** ['\n'.join(lines)] *)
Fixpoint join (lines : list text) : text :=
  match lines with
  | [] => []
  | [l] => l
  | l :: rest => l ++ newline :: join rest
  end.

Fixpoint text_eqb (s t : text) : bool :=
  match s, t with
  | [], [] => true
  | c :: s', d :: t' => (c =? d)%N && text_eqb s' t'
  | _, _ => false
  end.

(** [stripped == '['] *)
Definition is_marker (line : text) : bool :=
  text_eqb (strip line) [open_bracket].

(** The two locals of the loop: [found_json] and [json_lines]. *)
Record collector : Type := mkCollector {
  found_json : bool;
  json_lines : list text
}.

(** The body of the loop, lines 18-25. *)
Definition collect (st : collector) (line : text) : collector :=
  if negb (found_json st) then
    if is_marker line
    then {| found_json := true; json_lines := json_lines st ++ [line] |}
    else st
  else {| found_json := found_json st; json_lines := json_lines st ++ [line] |}.

(** Lines 13-27: the text handed to the parser. *)
Definition json_content (content : text) : text :=
  join (json_lines
          (fold_left collect (split content)
                     {| found_json := false; json_lines := [] |})).

Section Loader.

(** [json.loads] is the standard library's parser; the payload type is
    whatever it builds. *)
Variable payload : Type.
Variable json_loads : text -> result payload.

(** [content] is what [f.read()] returned. *)
Definition load_json (content : text) : result payload :=
  json_loads (json_content content).

End Loader.

(** The lines from the first marker line on, in the specification's words:
    every line strictly before the marker is dropped. *)
Fixpoint from_marker (lines : list text) : list text :=
  match lines with
  | [] => []
  | l :: rest => if is_marker l then l :: rest else from_marker rest
  end.

(** No line of [lines] is a marker line. *)
Definition no_marker (lines : list text) : Prop :=
  Forall (fun l => is_marker l = false) lines.

End Payload.

Module Extractor.

(** *** The record of one message (compare_pygrib.py, lines 22-83) *)

(** A message of the reference decoder, as far as the script reads it. *)
Record grib_message : Type := mkMessage {
  attribute : string -> option pyval;
    (* getattr(grb, name); None when it raises RuntimeError, KeyError or
       AttributeError, the three that safe_get catches *)
  validDate : string;              (* str(grb.validDate) *)
  analDate : option string;        (* the same for analDate, when it exists *)
  grb_values : list float;         (* grb.values.flatten() *)
  lats : list float;               (* grb.latlons()[0].flatten() *)
  lons : list float                (* grb.latlons()[1].flatten() *)
}.

(** [safe_get(grb, attr, default)] *)
Definition safe_get (grb : grib_message) (attr : string) (default : pyval)
  : pyval :=
  match attribute grb attr with
  | Some v => v
  | None => default
  end.

(** [d[key] = v]: in place when the key exists, at the end otherwise. *)
Fixpoint setitem {A : Type} (d : list (string * A)) (key : string) (v : A)
  : list (string * A) :=
  match d with
  | [] => [(key, v)]
  | (k, w) :: rest =>
      if String.eqb k key then (k, v) :: rest else (k, w) :: setitem rest key v
  end.

(** [l[idx]] with Python's negative indices. *)
Definition py_index {A : Type} (l : list A) (idx : Z) : result A :=
  let n := Z.of_nat (List.length l) in
  let pos := if (idx <? 0)%Z then (idx + n)%Z else idx in
  if ((0 <=? pos) && (pos <? n))%Z
  then match nth_error l (Z.to_nat pos) with
       | Some a => Ok a
       | None => Raise IndexError
       end
  else Raise IndexError.

(** [str(idx)] *)
Definition str_of_Z (z : Z) : string := NilZero.string_of_int (Z.to_int z).

Definition head10 {A : Type} (l : list A) : list A := firstn 10 l.         (* l[:10] *)
Definition tail10 {A : Type} (l : list A) : list A :=
  skipn (List.length l - 10) l.                                          (* l[-10:] *)

Definition floats (l : list float) : pyval := VList (map PFloat l).

(** The test of line 68. *)
Definition wants_all_values (msg_num : nat) : bool :=
  (msg_num <=? 5)%nat || ((msg_num - 1) mod 51 <? 2)%nat.

(** Line 73, with [total = len(values)]. *)
Definition spot_indices (total : Z) : list Z :=
  [0; 1; 2; total / 4; total / 2; 3 * total / 4; total - 3; total - 2; total - 1]%Z.

(** Line 74: the dict comprehension, one key after the other. *)
Fixpoint spot_values (values : list float) (indices : list Z)
  (acc : list (string * pynum)) : result (list (string * pynum)) :=
  match indices with
  | [] => Ok acc
  | idx :: rest =>
      rbind (py_index values idx) (fun v =>
      spot_values values rest (setitem acc (str_of_Z idx) (PFloat v)))
  end.

Section Reductions.

(** numpy's reductions of a non-empty array. *)
Variables np_min np_max np_mean : list float -> float.

(** The body of the loop of line 22 for the message at position [i]. *)
Definition message_info (i : nat) (grb : grib_message) : result record :=
  let msg_num := S i in
  let info : record :=
    [ ("message", VNum (PInt (Z.of_nat msg_num)));
      ("parameterName", safe_get grb "parameterName" VNone);
      ("shortName", safe_get grb "shortName" VNone);
      ("indicatorOfParameter", safe_get grb "indicatorOfParameter" VNone);
      ("table2Version", safe_get grb "table2Version" VNone);
      ("level", safe_get grb "level" VNone);
      ("levelType", safe_get grb "levelType" VNone);
      ("typeOfLevel", safe_get grb "typeOfLevel" VNone);
      ("validDate", VStr (validDate grb));
      ("analDate", VStr (match analDate grb with
                         | Some s => s
                         | None => "None"
                         end));
      ("dataDate", safe_get grb "dataDate" VNone);
      ("dataTime", safe_get grb "dataTime" VNone);
      ("year", safe_get grb "year" VNone);
      ("month", safe_get grb "month" VNone);
      ("day", safe_get grb "day" VNone);
      ("hour", safe_get grb "hour" VNone);
      ("minute", safe_get grb "minute" VNone) ]%string in
  let info := setitem info "Ni" (safe_get grb "Ni" VNone) in
  let info := setitem info "Nj" (safe_get grb "Nj" VNone) in
  let info := setitem info "latitudeOfFirstGridPoint"
                (safe_get grb "latitudeOfFirstGridPointInDegrees" VNone) in
  let info := setitem info "longitudeOfFirstGridPoint"
                (safe_get grb "longitudeOfFirstGridPointInDegrees" VNone) in
  let info := setitem info "latitudeOfLastGridPoint"
                (safe_get grb "latitudeOfLastGridPointInDegrees" VNone) in
  let info := setitem info "longitudeOfLastGridPoint"
                (safe_get grb "longitudeOfLastGridPointInDegrees" VNone) in
  let info := setitem info "iDirectionIncrement"
                (safe_get grb "iDirectionIncrementInDegrees" VNone) in
  let info := setitem info "jDirectionIncrement"
                (safe_get grb "jDirectionIncrementInDegrees" VNone) in
  let values := grb_values grb in
  let info := setitem info "numValues"
                (VNum (PInt (Z.of_nat (List.length values)))) in
  match values with
  | [] => Raise ValueError      (* values.min() of an empty array *)
  | _ :: _ =>
      let info := setitem info "min" (VNum (PFloat (np_min values))) in
      let info := setitem info "max" (VNum (PFloat (np_max values))) in
      let info := setitem info "mean" (VNum (PFloat (np_mean values))) in
      let info := setitem info "first10" (floats (head10 values)) in
      let info := setitem info "last10" (floats (tail10 values)) in
      let info := if wants_all_values msg_num
                  then setitem info "allValues" (floats values)
                  else info in
      let total := Z.of_nat (List.length values) in
      rbind (spot_values values (spot_indices total) []) (fun spots =>
      let info := setitem info "spotValues" (VDict spots) in
      rbind (py_index (lats grb) 0) (fun first_lat =>
      let info := setitem info "firstLat" (VNum (PFloat first_lat)) in
      rbind (py_index (lons grb) 0) (fun first_lon =>
      let info := setitem info "firstLon" (VNum (PFloat first_lon)) in
      rbind (py_index (lats grb) (-1)) (fun last_lat =>
      let info := setitem info "lastLat" (VNum (PFloat last_lat)) in
      rbind (py_index (lons grb) (-1)) (fun last_lon =>
      let info := setitem info "lastLon" (VNum (PFloat last_lon)) in
      Ok info)))))
  end.

(** [main]: the list [results] handed to [json.dumps]. *)
Fixpoint extract_from (i : nat) (grbs : list grib_message)
  : result (list record) :=
  match grbs with
  | [] => Ok []
  | grb :: rest =>
      rbind (message_info i grb) (fun info =>
      rbind (extract_from (S i) rest) (fun results =>
      Ok (info :: results)))
  end.

Definition main (grbs : list grib_message) : result (list record) :=
  extract_from 0 grbs.

End Reductions.

(** The two sampling modes of the specification's record. *)
Definition has_all_values (info : record) : bool := contains "allValues" info.
Definition has_samples (info : record) : bool :=
  contains "first10" info && contains "last10" info.
Definition has_statistics (info : record) : bool :=
  contains "min" info && contains "max" info && contains "mean" info.

End Extractor.

Module Wind.

Local Open Scope R_scope.

(** *** Numbers of check_wind.py

    [arctan2], [sqrt] and the conversion to degrees are taken over the real
    numbers: every finite binary64 is a real, and rounding, overflow and NaN
    are left out.  What is kept of binary64 is the sign of zero, which
    [arctan2] reads: a float is a real number or the negative zero, and
    [Real 0] is the positive zero. *)
Inductive f64 : Type :=
| NegZero
| Real (x : R).

Definition value (a : f64) : R :=
  match a with
  | NegZero => 0
  | Real x => x
  end.

(** The arguments of [calc_wind_direction]: the test table passes Python
    integers, the grid arrays hold floats. *)
Inductive scalar : Type :=
| SInt (n : Z)
| SFloat (a : f64).

(** The conversion numpy applies to an argument. *)
Definition to_f64 (s : scalar) : f64 :=
  match s with
  | SInt n => Real (IZR n)
  | SFloat a => a
  end.

Definition Rltb (x y : R) : bool := if Rlt_dec x y then true else false.
Definition Rleb (x y : R) : bool := if Rle_dec x y then true else false.

(** [-a] on a float flips the sign of a zero. *)
Definition f64_neg (a : f64) : f64 :=
  match a with
  | NegZero => Real 0
  | Real x => if Req_dec_T x 0 then NegZero else Real (- x)
  end.

(** [a + b] on floats: the sum of two negative zeros is the negative zero,
    every other zero sum is positive. *)
Definition f64_add (a b : f64) : f64 :=
  match a, b with
  | NegZero, NegZero => NegZero
  | _, _ => Real (value a + value b)
  end.

(** [-s] *)
Definition neg (s : scalar) : scalar :=
  match s with
  | SInt n => SInt (- n)
  | SFloat a => SFloat (f64_neg a)
  end.

(** [s**2] *)
Definition square (s : scalar) : scalar :=
  match s with
  | SInt n => SInt (n ^ 2)
  | SFloat a => SFloat (Real (value a ^ 2))
  end.

(** [s + t] *)
Definition add (s t : scalar) : scalar :=
  match s, t with
  | SInt m, SInt n => SInt (m + n)
  | _, _ => SFloat (f64_add (to_f64 s) (to_f64 t))
  end.

(** [np.sqrt], on what a sum of squares can be. *)
Definition np_sqrt (s : scalar) : f64 :=
  match to_f64 s with
  | NegZero => NegZero
  | Real x => Real (sqrt x)
  end.

(** The sign of a float, zeros apart. *)
Inductive sign : Type := Negative | MinusZero | PlusZero | Positive.

Definition sign_of (a : f64) : sign :=
  match a with
  | NegZero => MinusZero
  | Real x => if Rlt_dec x 0 then Negative
              else if Rlt_dec 0 x then Positive else PlusZero
  end.

(** [np.arctan2(y, x)], with the values IEEE 754 and C fix for zeros. *)
Definition arctan2 (y x : f64) : f64 :=
  match sign_of y, sign_of x with
  | PlusZero, (PlusZero | Positive) => Real 0
  | MinusZero, (PlusZero | Positive) => NegZero
  | PlusZero, (MinusZero | Negative) => Real PI
  | MinusZero, (MinusZero | Negative) => Real (- PI)
  | Positive, (PlusZero | MinusZero) => Real (PI / 2)
  | Negative, (PlusZero | MinusZero) => Real (- (PI / 2))
  | (Positive | Negative), Positive => Real (atan (value y / value x))
  | Positive, Negative => Real (atan (value y / value x) + PI)
  | Negative, Negative => Real (atan (value y / value x) - PI)
  end.

(** [np.degrees] *)
Definition degrees (a : f64) : f64 :=
  match a with
  | NegZero => NegZero
  | Real x => Real (x * (180 / PI))
  end.

(** [np.where(direction < 0, direction + 360, direction)] *)
Definition normalize (direction : f64) : f64 :=
  if Rltb (value direction) 0 then Real (value direction + 360) else direction.

(** [calc_wind_direction] (check_wind.py, lines 9-15). *)
Definition calc_wind_direction (u v : scalar) : f64 * f64 :=
  let speed := np_sqrt (add (square u) (square v)) in
  let direction := degrees (arctan2 (to_f64 (neg u)) (to_f64 (neg v))) in
  let direction := normalize direction in
  (speed, direction).

(** The ladder of lines 89-104. *)
Definition compass (dir : f64) : string :=
  let d := value dir in
  if Rleb 337.5 d || Rltb d 22.5 then "N"
  else if Rleb 22.5 d && Rltb d 67.5 then "NE"
  else if Rleb 67.5 d && Rltb d 112.5 then "E"
  else if Rleb 112.5 d && Rltb d 157.5 then "SE"
  else if Rleb 157.5 d && Rltb d 202.5 then "S"
  else if Rleb 202.5 d && Rltb d 247.5 then "SW"
  else if Rleb 247.5 d && Rltb d 292.5 then "W"
  else "NW".

(** The arguments of the table of lines 119-128, in its order. *)
Definition test_cases : list (Z * Z) :=
  [(0, -1); (1, 0); (0, 1); (-1, 0); (1, -1); (-1, -1); (-1, 1); (1, 1)]%Z.

(** The two ways of writing a table entry: the integer literal of the
    script, and the float of the same value, as a grid array holds it. *)
Definition as_int (n : Z) : scalar := SInt n.
Definition as_float (n : Z) : scalar := SFloat (Real (IZR n)).

Definition direction_of (inject : Z -> scalar) (uv : Z * Z) : R :=
  value (snd (calc_wind_direction (inject (fst uv)) (inject (snd uv)))).

(** "Within 1e-9 degrees". *)
Definition close_to (expected actual : R) : Prop :=
  Rabs (actual - expected) <= 1e-9.

(** The directions the specification's table lists, and those the function
    gives, for [test_cases] in order. *)
Definition specified_directions : list R :=
  [0; 90; 180; 270; 45; 135; 225; 315].

Definition computed_directions : list R :=
  [0; 270; 180; 90; 315; 45; 135; 225].

Definition satisfies_table (inject : Z -> scalar) (expected : list R) : Prop :=
  Forall2 close_to expected (map (direction_of inject) test_cases).

(** The normalized bearing of [arctan2 y x], the last two lines of
    [calc_wind_direction]. *)
Definition bearing (y x : f64) : R := value (normalize (degrees (arctan2 y x))).

End Wind.

(** * Notions used to state further properties *)

Module Table.

Import Wind.

(** *** The table of the first ten grid points (check_wind.py, lines 53-56) *)





End Table.

Module Search.

(** *** The search for the first U and V messages *)

(** [m is None] *)
Definition is_none {A : Type} (m : option A) : bool :=
  match m with
  | None => true
  | Some _ => false
  end.

(** **** verify_wind_direction.py, lines 28-40: records of the payload *)

(** [msg.get("indicatorOfParameter") == id] *)
Definition has_indicator (id : Z) (msg : record) : bool :=
  py_eq (get msg "indicatorOfParameter" VNone) (VNum (PInt id)).

(** The truth value of [None] or of a dict: a dict is true when it is not
    empty. *)
Definition dict_truth (m : option record) : bool :=
  match m with
  | Some (_ :: _) => true
  | _ => false
  end.

(** Lines 31-34. *)
Definition pick_by_indicator (msg : record) (u_msg v_msg : option record)
  : option record * option record :=
  if has_indicator 33 msg && is_none u_msg then (Some msg, v_msg)
  else if has_indicator 34 msg && is_none v_msg then (u_msg, Some msg)
  else (u_msg, v_msg).

(** The loop of line 30, with the [break] of lines 35-36. *)
Fixpoint find_by_indicator (swift_data : list record)
  (u_msg v_msg : option record) : option record * option record :=
  match swift_data with
  | [] => (u_msg, v_msg)
  | msg :: rest =>
      let (u_msg, v_msg) := pick_by_indicator msg u_msg v_msg in
      if dict_truth u_msg && dict_truth v_msg then (u_msg, v_msg)
      else find_by_indicator rest u_msg v_msg
  end.

(** Lines 38-40: the script goes on unless [not u_msg or not v_msg]. *)
Definition goes_on (found : option record * option record) : bool :=
  negb (negb (dict_truth (fst found)) || negb (dict_truth (snd found))).

(** **** check_wind.py, lines 24-34: messages of the reference decoder *)

Section Messages.

Variable message : Type.

(** [msg.shortName == '10u' or 'U-component' in str(msg)], the same for V,
    and the truth value of a message. *)
Variables is_u is_v truth : message -> bool.

(** Lines 27-32. *)
Definition pick_by_name (msg : message) (u_msg v_msg : option message)
  : option message * option message :=
  if is_u msg then
    if is_none u_msg then (Some msg, v_msg) else (u_msg, v_msg)
  else if is_v msg then
    if is_none v_msg then (u_msg, Some msg) else (u_msg, v_msg)
  else (u_msg, v_msg).

Definition message_truth (m : option message) : bool :=
  match m with
  | Some msg => truth msg
  | None => false
  end.

(** The loop of line 26, with the [break] of lines 33-34. *)
Fixpoint find_by_name (messages : list message)
  (u_msg v_msg : option message) : option message * option message :=
  match messages with
  | [] => (u_msg, v_msg)
  | msg :: rest =>
      let (u_msg, v_msg) := pick_by_name msg u_msg v_msg in
      if message_truth u_msg && message_truth v_msg then (u_msg, v_msg)
      else find_by_name rest u_msg v_msg
  end.

End Messages.

End Search.

Module Notions.

Import Comparator.


(** The maximum difference a summary reports, and the index it reports. *)
Definition reported_max (s : summary) : option pynum :=
  match s with
  | LengthMismatch _ _ => None
  | ValuesDiffer m _ _ => Some m
  | MaxDiff m => Some m
  end.

Definition reported_index (s : summary) : option nat :=
  match s with
  | ValuesDiffer _ idx _ => Some idx
  | _ => None
  end.

Definition is_float (a : pynum) : bool :=
  match a with
  | PFloat _ => true
  | PInt _ => false
  end.

(** A tolerance that a zero difference does not exceed. *)
Definition admits_zero (tolerance : pynum) : Prop :=
  py_gt (PInt 0) tolerance = false /\ py_gt (PFloat 0) tolerance = false.

(** A value equal to itself under [==]: anything free of NaN. *)
Definition self_equal (v : pyval) : Prop := py_eq v v = true.

(** What the loop knows of [max_diff] and [max_diff_idx] with respect to
    the two lists [a] and [b] it runs over. *)
Definition tracked (a b : list pynum) (st : scan) : Prop :=
  is_nan (max_diff st) = false
  /\ (max_diff st = PInt 0 /\ max_diff_idx st = 0%nat
      \/ exists pv sv,
           nth_error a (max_diff_idx st) = Some pv
           /\ nth_error b (max_diff_idx st) = Some sv
           /\ max_diff st = abs_diff pv sv).

(** The values [max_diff] takes on lists of floats: the initial 0 or a
    float. *)
Definition float_or_zero (m : pynum) : Prop := m = PInt 0 \/ is_float m = true.

(** A property of the run that a command keeps, however it ends. *)
Definition keeps {A : Type} (P : run -> Prop) (m : M A) : Prop :=
  forall st st' r, P st -> m st = (st', r) -> P st'.

(** A property of the run that does not read the output. *)
Definition output_blind (P : run -> Prop) : Prop :=
  forall st l,
    P st ->
    P {| out := out st ++ [l]; found := found st; all_match := all_match st |}.

(** The category an entry of [issues] belongs to, and the message number
    at its head. *)
Definition category_of (i : issue) : category :=
  match i with
  | ValuesMismatch _ _ _ | SampleMismatch _
  | MinDiffers _ _ _ | MaxDiffers _ _ _ | MeanDiffers _ _ _ => Values
  | GridSizeDiffers _ => Grid
  | ParameterIdDiffers _ _ _ => Metadata
  end.

Definition msg_num_of (i : issue) : nat :=
  match i with
  | ValuesMismatch n _ _ | SampleMismatch n
  | MinDiffers n _ _ | MaxDiffers n _ _ | MeanDiffers n _ _
  | GridSizeDiffers n | ParameterIdDiffers n _ _ => n
  end.

(** Every recorded entry sits under its own category and names one of the
    messages 1 .. [count]. *)
Definition well_sorted (count : nat) (st : run) : Prop :=
  forall c i,
    In i (items c (found st)) ->
    category_of i = c /\ (1 <= msg_num_of i <= count)%nat.

(** A property of the run that a command keeps when it returns. *)
Definition keeps_ok {A : Type} (P : run -> Prop) (m : M A) : Prop :=
  forall st st' a, P st -> m st = (st', Ok a) -> P st'.

(** The entries written by the array comparisons of lines 84-119. *)
Definition is_array_issue (i : issue) : bool :=
  match i with
  | ValuesMismatch _ _ _ | SampleMismatch _ => true
  | _ => false
  end.

Definition has_array_issue (st : run) : Prop :=
  exists i, In i (values (found st)) /\ is_array_issue i = true.

Definition no_array_issue (st : run) : Prop :=
  forall i, In i (values (found st)) -> is_array_issue i = false.

(** The properties of the run that the verdict rests on. *)
Definition flag_cleared (st : run) : Prop := all_match st = false.

Definition flag_implies_clean (st : run) : Prop :=
  all_match st = true -> no_array_issue st.

Definition cleared_implies_issue (st : run) : Prop :=
  all_match st = false -> has_array_issue st.

Definition not_printed (l : line) (st : run) : Prop := ~ In l (out st).

(** A command that, when it returns, has made a property hold. *)
Definition establishes {A : Type} (Q : run -> Prop) (m : M A) : Prop :=
  forall st st' a, m st = (st', Ok a) -> Q st'.

(** The loop of lines 78-135. *)
Definition comparison_pass (pygrib_data swift_data : list record) : M unit :=
  for_range (List.length pygrib_data) (fun i =>
    bind (lift (index pygrib_data i)) (fun pg =>
    bind (lift (index swift_data i)) (fun sg =>
    compare_message i pg sg))).

(** What follows the comparison pass: lines 137-229. *)
Definition report (pygrib_data swift_data : list record) : M unit :=
  bind (print (Banner "SUMMARY")) (fun _ =>
  bind report_verdict (fun _ =>
  first_message_detail pygrib_data swift_data)).

(** A run that has recorded nothing and still holds [all_match]. *)
Definition clean (st : run) : Prop :=
  found st = no_issues /\ all_match st = true.

(** A record whose grid shape and parameter indicator equal themselves
    under [==]: none of the three is a NaN. *)
Definition comparable (r : record) : Prop :=
  self_equal (get r "Ni" VNone)
  /\ self_equal (get r "Nj" VNone)
  /\ self_equal (get r "indicatorOfParameter" VNone).

Definition printed (l : line) (st : run) : Prop := In l (out st).

(** The three statistics read by lines 122-126. *)
Definition statistic_keys : list string := ["min"; "max"; "mean"]%string.

(** The lines a category adds to the report: its header, its first ten
    entries, and the number of entries left out when there are more. *)
Definition category_lines (c : category) (iss : issues) : list line :=
  match items c iss with
  | [] => []
  | _ :: _ =>
      CategoryHeader c (List.length (items c iss))
      :: map IssueItem (firstn 10 (items c iss))
      ++ (if (10 <? List.length (items c iss))%nat
          then [AndMore (List.length (items c iss) - 10)]
          else [])
  end.

(** The run with more lines printed. *)
Definition with_output (st : run) (lines : list line) : run :=
  {| out := out st ++ lines; found := found st; all_match := all_match st |}.

(** The state in which the comparison pass starts. *)
Definition pass_start (pg sg : list record) : run :=
  {| out := [ Banner "PYGRIB vs SWIFTGRIB DEEP COMPARISON";
              MessageCounts (List.length pg) (List.length sg);
              Comparing (List.length pg) ];
     found := no_issues;
     all_match := true |}.

(** A text made of the characters [str.strip] removes. *)
Definition all_spaces (s : Payload.text) : Prop :=
  forallb Payload.is_space s = true.

(** A message the extractor can describe: at least three values, for the
    spot checks of line 73, and a grid with a first and a last point. *)
Definition describable (grb : Extractor.grib_message) : Prop :=
  (3 <= List.length (Extractor.grb_values grb))%nat
  /\ Extractor.lats grb <> [] /\ Extractor.lons grb <> [].


(** An index [values[idx]] accepts, from either end. *)
Definition in_range (n : nat) (idx : Z) : Prop :=
  (- Z.of_nat n <= idx < Z.of_nat n)%Z.

(** A command that returns, whatever the run it starts in. *)
Definition returns {A : Type} (m : M A) : Prop :=
  forall st, exists st' a, m st = (st', Ok a).

(** A message with a parameter name, and one whose grid shape and
    parameter indicator are free of NaN. *)
Definition named (grb : Extractor.grib_message) : Prop :=
  exists s, Extractor.attribute grb "parameterName" = Some (VStr s).

Definition plain_grid (grb : Extractor.grib_message) : Prop :=
  self_equal (Extractor.safe_get grb "Ni" VNone)
  /\ self_equal (Extractor.safe_get grb "Nj" VNone)
  /\ self_equal (Extractor.safe_get grb "indicatorOfParameter" VNone).

(** A record the comparison can read to its end: a name that is a string,
    the three statistics as numbers, the two samples as arrays, and an
    array under [allValues] when the key is there. *)
Definition readable (info : record) : Prop :=
  (exists s, getitem info "parameterName" = Ok (VStr s))
  /\ (forall key, In key statistic_keys ->
                  exists a, getitem info key = Ok (VNum a))
  /\ (exists l, getitem info "first10" = Ok (VList l))
  /\ (exists l, getitem info "last10" = Ok (VList l))
  /\ (contains "allValues" info = true ->
      exists l, getitem info "allValues" = Ok (VList l)).




(** The eight names of the ladder of lines 89-104, clockwise from north. *)
Definition compass_names : list string :=
  ["N"; "NE"; "E"; "SE"; "S"; "SW"; "W"; "NW"]%string.

(** A float that is one of the two zeros. *)
Definition is_zero (a : Wind.f64) : Prop :=
  Wind.sign_of a = Wind.PlusZero \/ Wind.sign_of a = Wind.MinusZero.

(** What a search still looks for: the message it holds, or the first
    message of the rest that satisfies the test. *)
Definition held_or_first {A : Type} (held : option A) (test : A -> bool)
  (rest : list A) : option A :=
  match held with
  | Some _ => held
  | None => find test rest
  end.

(** A dict of spot values that holds nothing but values of the array,
    each under the decimal spelling of an index it is found at. *)
Definition spots_of (values : list float) (d : list (string * pynum))
  : Prop :=
  forall key a,
    lookup key d = Some a ->
    exists idx v,
      key = Extractor.str_of_Z idx
      /\ Extractor.py_index values idx = Ok v
      /\ a = PFloat v.


End Notions.

(** * Sample inputs *)

Module Samples.

Import Comparator.
Local Open Scope string_scope.

(** A small record of the reference decoder: a 2 x 2 grid. *)
Definition u_wind : record :=
  [ ("parameterName", VStr "U-component of wind");
    ("indicatorOfParameter", VNum (PInt 33));
    ("Ni", VNum (PInt 2));
    ("Nj", VNum (PInt 2));
    ("min", VNum (PFloat 1.5));
    ("max", VNum (PFloat 9.25));
    ("mean", VNum (PFloat 4));
    ("first10", VList [PFloat 1.5; PFloat 9.25; PFloat 2.25; PFloat 3]);
    ("last10", VList [PFloat 1.5; PFloat 9.25; PFloat 2.25; PFloat 3]);
    ("allValues", VList [PFloat 1.5; PFloat 9.25; PFloat 2.25; PFloat 3]) ].

(** The same record with another value under [key], and without [key]. *)
Definition with_field (key : string) (v : pyval) (r : record) : record :=
  map (fun kv => if String.eqb (fst kv) key then (fst kv, v) else kv) r.

Definition without_field (key : string) (r : record) : record :=
  filter (fun kv => negb (String.eqb (fst kv) key)) r.

(** The mean off by 2e-4, the parameter indicator changed, the column
    count changed, and the column count absent. *)
Definition u_wind_mean_off : record :=
  with_field "mean" (VNum (PFloat 4.0002)) u_wind.
Definition u_wind_other_id : record :=
  with_field "indicatorOfParameter" (VNum (PInt 34)) u_wind.
Definition u_wind_other_grid : record :=
  with_field "Ni" (VNum (PInt 3)) u_wind.

(** The state in which a run of [main] ends. *)
Definition final (pygrib_data swift_data : list record) : run :=
  fst (main pygrib_data swift_data run_init).

(** A text from its ASCII spelling, a parser that only tells the empty
    text from the rest, and a collaborator's output with build chatter
    before the payload. *)
Definition text_of (s : string) : Payload.text :=
  map N_of_ascii (list_ascii_of_string s).

Definition toy_loads (s : Payload.text) : result Payload.text :=
  match s with
  | [] => Raise JSONDecodeError
  | _ :: _ => Ok s
  end.

Definition noisy_output : Payload.text :=
  (text_of "Compiling..." ++ [Payload.newline]
   ++ text_of "  [ " ++ [Payload.newline]
   ++ text_of "  {}" ++ [Payload.newline]
   ++ text_of "]")%list.

(** A message on a 2 x 2 grid, and plain stand-ins for numpy's three
    reductions. *)
Definition sample_message : Extractor.grib_message :=
  {| Extractor.attribute :=
       fun name => if String.eqb name "Ni" then Some (VNum (PInt 2))
                   else if String.eqb name "Nj" then Some (VNum (PInt 2))
                   else None;
     Extractor.validDate := "2026-02-01 06:00:00";
     Extractor.analDate := Some "2026-02-01 06:00:00";
     Extractor.grb_values := [1.5; 9.25; 2.25; 3]%float;
     Extractor.lats := [-31; -31; -31.5; -31.5]%float;
     Extractor.lons := [145; 145.5; 145; 145.5]%float |}.

Definition fold_min (l : list float) : float :=
  fold_left (fun acc x => if (x <? acc)%float then x else acc) (tl l) (hd 0%float l).
Definition fold_max (l : list float) : float :=
  fold_left (fun acc x => if (acc <? x)%float then x else acc) (tl l) (hd 0%float l).
Definition fold_mean (l : list float) : float :=
  (fold_left PrimFloat.add l 0 / Z2F (Z.of_nat (List.length l)))%float.

Definition extract : list Extractor.grib_message -> result (list record) :=
  Extractor.main fold_min fold_max fold_mean.

(** The second value of the full array off by 0.5. *)
Definition u_wind_values_off : record :=
  with_field "allValues"
             (VList [PFloat 1.5; PFloat 9.75; PFloat 2.25; PFloat 3]) u_wind.


Definition named_message : Extractor.grib_message :=
  {| Extractor.attribute :=
       fun name =>
         if String.eqb name "parameterName"
         then Some (VStr "U-component of wind")
         else if String.eqb name "indicatorOfParameter"
              then Some (VNum (PInt 33))
              else Extractor.attribute sample_message name;
     Extractor.validDate := Extractor.validDate sample_message;
     Extractor.analDate := Extractor.analDate sample_message;
     Extractor.grb_values := [1.5; 9.25; nan; 3]%float;
     Extractor.lats := Extractor.lats sample_message;
     Extractor.lons := Extractor.lons sample_message |}.

End Samples.

(** * Properties *)

Section ComparatorFacts.

Import Comparator.

(** C10.  Two empty lists compare as a pass under any tolerance, and the
    summary reports the maximum difference 0. *)
Theorem compare_values_empty :
  forall tolerance : pynum,
    compare_values [] [] tolerance = (true, MaxDiff (PInt 0)).
Proof. intro tolerance. reflexivity. Qed.












(** C8, as the code has it.  Lists of different lengths fail in both
    orders with a length-mismatch summary, which names the two lengths in
    the order of the arguments. *)
Theorem compare_values_length_mismatch :
  forall a b tolerance,
    List.length a <> List.length b ->
    compare_values a b tolerance
    = (false, LengthMismatch (List.length a) (List.length b))
    /\ compare_values b a tolerance
       = (false, LengthMismatch (List.length b) (List.length a)).
Proof.
  intros a b tolerance Hlen. unfold compare_values.
  assert (Hab : (List.length a =? List.length b)%nat = false)
    by (apply Nat.eqb_neq; exact Hlen).
  assert (Hba : (List.length b =? List.length a)%nat = false)
    by (apply Nat.eqb_neq; intro H; apply Hlen; symmetry; exact H).
  rewrite Hab, Hba. split; reflexivity.
Qed.

Lemma compare_values_length_mismatch_witness :
  List.length [PFloat 1; PFloat 2] <> List.length [PFloat 1]
  /\ compare_values [PFloat 1; PFloat 2] [PFloat 1] default_tolerance
     = (false, LengthMismatch 2 1)
  /\ compare_values [PFloat 1] [PFloat 1; PFloat 2] default_tolerance
     = (false, LengthMismatch 1 2).
Proof.
  split; [discriminate |].
  apply (compare_values_length_mismatch [PFloat 1; PFloat 2] [PFloat 1]).
  discriminate.
Defined.

(** C8 as stated fails: the two orders do not return the same pair. *)
Lemma compare_values_swap_differs :
  compare_values [PFloat 1; PFloat 2] [PFloat 1] default_tolerance
  = (false, LengthMismatch 2 1)
  /\ compare_values [PFloat 1] [PFloat 1; PFloat 2] default_tolerance
     = (false, LengthMismatch 1 2)
  /\ compare_values [PFloat 1; PFloat 2] [PFloat 1] default_tolerance
     <> compare_values [PFloat 1] [PFloat 1; PFloat 2] default_tolerance.
Proof.
  split; [reflexivity |]. split; [reflexivity |]. discriminate.
Qed.

(** C6.  Sequences of unequal length: the run prints the banner, the two
    counts and the error, and returns; no message is compared, no
    per-message line is printed and no discrepancy is recorded. *)
Theorem main_count_mismatch :
  forall pygrib_data swift_data : list record,
    List.length pygrib_data <> List.length swift_data ->
    main pygrib_data swift_data run_init
    = ({| out := [ Banner "PYGRIB vs SWIFTGRIB DEEP COMPARISON";
                   MessageCounts (List.length pygrib_data)
                                 (List.length swift_data);
                   CountMismatchError ];
          found := no_issues;
          all_match := true |},
       Ok tt).
Proof.
  intros pygrib_data swift_data Hlen. unfold main.
  apply Nat.eqb_neq in Hlen. unfold bind at 1. simpl.
  unfold bind at 1. simpl. rewrite Hlen. reflexivity.
Qed.

Lemma main_count_mismatch_witness :
  List.length [Samples.u_wind] <> List.length [Samples.u_wind; Samples.u_wind]
  /\ main [Samples.u_wind] [Samples.u_wind; Samples.u_wind] run_init
     = ({| out := [ Banner "PYGRIB vs SWIFTGRIB DEEP COMPARISON";
                    MessageCounts 1 2;
                    CountMismatchError ];
           found := no_issues;
           all_match := true |},
        Ok tt).
Proof.
  split; [discriminate |].
  apply (main_count_mismatch [Samples.u_wind] [Samples.u_wind; Samples.u_wind]).
  discriminate.
Defined.

(** The statistics check records its discrepancy and leaves [all_match]
    as it was; the grid and parameter-ID checks of lines 130-135 are
    [record_issue] alone. *)
Lemma compare_statistic_all_match :
  forall key tolerance describe pg sg st,
    all_match (fst (compare_statistic key tolerance describe pg sg st))
    = all_match st.
Proof.
  intros key tolerance describe pg sg st.
  unfold compare_statistic, bind, lift, when, record_issue, ret.
  destruct (getitem pg key) as [pv |]; [| reflexivity].
  destruct (getitem sg key) as [sv |]; [| reflexivity].
  destruct (as_num pv) as [a |]; [| reflexivity].
  destruct (as_num sv) as [b |]; [| reflexivity].
  destruct (py_gt (abs_diff a b) tolerance); reflexivity.
Qed.

(** C2, on the code: a recorded statistics, grid-shape or parameter-ID
    discrepancy leaves the verdict at "all match".  In each of the three
    runs one discrepancy is recorded and the only verdict line printed is
    that of line 142. *)
Theorem main_verdict_ignores_recorded_issues :
  (values (found (Samples.final [Samples.u_wind] [Samples.u_wind_mean_off]))
   = [MeanDiffers 1 (PFloat 4) (PFloat 4.0002)]
   /\ issue_count (found (Samples.final [Samples.u_wind] [Samples.u_wind_mean_off]))
      = 1%nat
   /\ verdicts (Samples.final [Samples.u_wind] [Samples.u_wind_mean_off])
      = [VerdictAllMatch])
  /\ (grid (found (Samples.final [Samples.u_wind] [Samples.u_wind_other_grid]))
      = [GridSizeDiffers 1]
      /\ verdicts (Samples.final [Samples.u_wind] [Samples.u_wind_other_grid])
         = [VerdictAllMatch])
  /\ (metadata (found (Samples.final [Samples.u_wind] [Samples.u_wind_other_id]))
      = [ParameterIdDiffers 1 (VNum (PInt 33)) (VNum (PInt 34))]
      /\ verdicts (Samples.final [Samples.u_wind] [Samples.u_wind_other_id])
         = [VerdictAllMatch]).
Proof.
  repeat split; vm_compute; reflexivity.
Qed.





Lemma bind_ok :
  forall (A B : Type) (m : M A) (k : A -> M B) st st' b,
    bind m k st = (st', Ok b) ->
    exists a st1, m st = (st1, Ok a) /\ k a st1 = (st', Ok b).
Proof.
  intros A B m k st st' b H. unfold bind in H.
  destruct (m st) as [st1 [a | e]]; [| discriminate].
  exists a, st1. split; [reflexivity | exact H].
Qed.






End ComparatorFacts.

Section PayloadFacts.

Import Payload.

Variable payload : Type.
Variable json_loads : text -> result payload.

(** [json.loads('')] raises [json.JSONDecodeError]. *)
Hypothesis json_loads_empty : json_loads [] = Raise JSONDecodeError.

(** Once the marker is found, every further line is kept. *)
Lemma collect_found :
  forall lines acc,
    json_lines (fold_left collect lines {| found_json := true; json_lines := acc |})
    = acc ++ lines.
Proof.
  induction lines as [| l lines IH]; intro acc; simpl.
  - rewrite app_nil_r. reflexivity.
  - unfold collect at 2. simpl. rewrite IH, <- app_assoc. reflexivity.
Qed.

(** The loop keeps what [from_marker] keeps. *)
Lemma collect_scanning :
  forall lines,
    json_lines (fold_left collect lines {| found_json := false; json_lines := [] |})
    = from_marker lines.
Proof.
  induction lines as [| l lines IH]; simpl; [reflexivity |].
  unfold collect at 2. simpl. destruct (is_marker l).
  - apply collect_found.
  - exact IH.
Qed.

Lemma from_marker_split :
  forall pre m post,
    no_marker pre -> is_marker m = true ->
    from_marker (pre ++ m :: post) = m :: post.
Proof.
  intros pre m post Hpre Hm. induction Hpre as [| l pre Hl _ IH]; simpl.
  - rewrite Hm. reflexivity.
  - rewrite Hl. exact IH.
Qed.

Lemma from_marker_none :
  forall lines, no_marker lines -> from_marker lines = [].
Proof.
  intros lines H. induction H as [| l lines Hl _ IH]; simpl; [reflexivity |].
  rewrite Hl. exact IH.
Qed.

Lemma split_not_nil : forall content, split content <> [].
Proof.
  destruct content as [| c rest]; simpl; [discriminate |].
  destruct (c =? newline)%N; [discriminate |].
  destruct (split rest); discriminate.
Qed.

(** Joining the pieces of [split] gives the text back: no line break is
    lost or added. *)
Lemma join_split : forall content, join (split content) = content.
Proof.
  induction content as [| c rest IH]; [reflexivity |]. simpl.
  destruct (N.eqb_spec c newline) as [Hc | Hc].
  - subst c. pose proof (split_not_nil rest) as Hne.
    destruct (split rest) as [| l ls]; [contradiction |].
    change (join ([] :: l :: ls)) with ([] ++ newline :: join (l :: ls)).
    rewrite IH. reflexivity.
  - pose proof (split_not_nil rest) as Hne.
    destruct (split rest) as [| l ls]; [contradiction |].
    destruct ls as [| l' ls].
    + simpl in *. rewrite IH. reflexivity.
    + change (join ((c :: l) :: l' :: ls))
        with ((c :: l) ++ newline :: join (l' :: ls)).
      change (join (l :: l' :: ls)) with (l ++ newline :: join (l' :: ls)) in IH.
      rewrite <- IH. reflexivity.
Qed.

Lemma join_app :
  forall pre rest,
    rest <> [] ->
    exists skipped, join (pre ++ rest) = skipped ++ join rest.
Proof.
  induction pre as [| l pre IH]; intros rest Hrest.
  - exists []. reflexivity.
  - destruct (IH rest Hrest) as [skipped Hs].
    exists (l ++ newline :: skipped).
    assert (Hne : pre ++ rest <> []).
    { destruct pre; [exact Hrest | discriminate]. }
    simpl. destruct (pre ++ rest) as [| x xs] eqn:E; [contradiction |].
    rewrite Hs, <- app_assoc. reflexivity.
Qed.

(** C4.  The lines before the first marker line are dropped, the marker
    line and all later lines are joined with their line breaks (the text
    parsed is the input from the marker line on) and handed to the parser;
    without a marker line the parser gets the empty text and the load fails
    with the parser's error, [JSONDecodeError]. *)
Theorem load_json_from_marker :
  forall content : text,
    (forall pre m post,
        split content = pre ++ m :: post ->
        no_marker pre -> is_marker m = true ->
        load_json payload json_loads content = json_loads (join (m :: post))
        /\ exists skipped, content = skipped ++ join (m :: post))
    /\ (no_marker (split content) ->
        load_json payload json_loads content = Raise JSONDecodeError).
Proof.
  intro content. unfold load_json, json_content. rewrite collect_scanning.
  split.
  - intros pre m post Hsplit Hpre Hm. rewrite Hsplit.
    rewrite (from_marker_split pre m post Hpre Hm). split; [reflexivity |].
    assert (Hne : m :: post <> []) by discriminate.
    destruct (join_app pre (m :: post) Hne) as [skipped Hs].
    exists skipped. rewrite <- Hs, <- Hsplit. symmetry. apply join_split.
  - intro Hnone. rewrite (from_marker_none _ Hnone). exact json_loads_empty.
Qed.

End PayloadFacts.

(** C4, an instance: chatter, then a marker line with blanks around the
    bracket. *)
Lemma load_json_from_marker_witness :
  Samples.toy_loads [] = Raise JSONDecodeError
  /\ Payload.load_json Payload.text Samples.toy_loads Samples.noisy_output
     = Ok (Samples.text_of "  [ " ++ [Payload.newline]
           ++ Samples.text_of "  {}" ++ [Payload.newline]
           ++ Samples.text_of "]")
  /\ Payload.load_json Payload.text Samples.toy_loads
       (Samples.text_of "no payload here")
     = Raise JSONDecodeError.
Proof.
  pose proof (load_json_from_marker Payload.text Samples.toy_loads eq_refl)
    as H.
  split; [reflexivity |]. split.
  - destruct (H Samples.noisy_output) as [Hfound _].
    destruct (Hfound [Samples.text_of "Compiling..."]
                     (Samples.text_of "  [ ")
                     [Samples.text_of "  {}"; Samples.text_of "]"])
      as [Hload _].
    + reflexivity.
    + repeat constructor.
    + reflexivity.
    + exact Hload.
  - destruct (H (Samples.text_of "no payload here")) as [_ Hnone].
    apply Hnone. repeat constructor.
Defined.

Section ExtractorFacts.

Import Extractor.

Variables np_min np_max np_mean : list float -> float.

(** The keys of a record that was built. *)
Lemma message_info_keys :
  forall i grb info,
    message_info np_min np_max np_mean i grb = Ok info ->
    has_samples info = true
    /\ has_statistics info = true
    /\ has_all_values info = wants_all_values (S i).
Proof.
  intros i grb info H. unfold message_info in H.
  destruct (grb_values grb) as [| x xs]; [discriminate |].
  destruct (spot_values _ _ _) as [spots |]; [| discriminate].
  destruct (py_index (lats grb) 0) as [first_lat |]; [| discriminate].
  destruct (py_index (lons grb) 0) as [first_lon |]; [| discriminate].
  destruct (py_index (lats grb) (-1)) as [last_lat |]; [| discriminate].
  destruct (py_index (lons grb) (-1)) as [last_lon |]; [| discriminate].
  simpl in H. injection H as <-.
  destruct (wants_all_values (S i)); repeat split; reflexivity.
Qed.

(** The record at position [j] of the output is the one built from the
    message at position [j]. *)
Lemma extract_from_nth :
  forall grbs start results,
    extract_from np_min np_max np_mean start grbs = Ok results ->
    forall j info,
      nth_error results j = Some info ->
      exists grb,
        nth_error grbs j = Some grb
        /\ message_info np_min np_max np_mean (start + j) grb = Ok info.
Proof.
  induction grbs as [| grb grbs IH]; intros start results H j info Hj.
  - simpl in H. injection H as <-. destruct j; discriminate.
  - simpl in H.
    destruct (message_info np_min np_max np_mean start grb) as [first |] eqn:E;
      [| discriminate].
    simpl in H.
    destruct (extract_from np_min np_max np_mean (S start) grbs) as [rest |] eqn:Er;
      [| discriminate].
    simpl in H. injection H as <-. destruct j as [| j]; simpl in Hj.
    + injection Hj as <-. exists grb. rewrite Nat.add_0_r. split; [reflexivity | exact E].
    + destruct (IH (S start) rest Er j info Hj) as [g [Hg Hinfo]].
      exists g. split; [exact Hg |].
      replace (start + S j)%nat with (S start + j)%nat by lia. exact Hinfo.
Qed.

(** C3, as the code has it.  Every record of the output carries the head
    and tail samples and the three statistics; it carries the full array
    besides exactly when its message number is at most 5 or is one of the
    first two of a block of 51. *)
Theorem record_sampling_keys :
  forall grbs results j info,
    main np_min np_max np_mean grbs = Ok results ->
    nth_error results j = Some info ->
    has_samples info = true
    /\ has_statistics info = true
    /\ has_all_values info = wants_all_values (S j).
Proof.
  intros grbs results j info Hmain Hj. unfold main in Hmain.
  destruct (extract_from_nth grbs 0 results Hmain j info Hj) as [grb [_ Hinfo]].
  exact (message_info_keys j grb info Hinfo).
Qed.

End ExtractorFacts.

(** C3, an instance: the sixth message of a file is sampled only. *)
Lemma record_sampling_keys_witness :
  exists results info,
    Samples.extract (repeat Samples.sample_message 6) = Ok results
    /\ nth_error results 5 = Some info
    /\ Extractor.has_samples info = true
    /\ Extractor.has_statistics info = true
    /\ Extractor.has_all_values info = false.
Proof.
  destruct (Samples.extract (repeat Samples.sample_message 6))
    as [results |] eqn:E; [| vm_compute in E; discriminate].
  destruct (nth_error results 5) as [info |] eqn:Ei.
  - exists results, info. split; [reflexivity |]. split; [exact Ei |].
    exact (record_sampling_keys Samples.fold_min Samples.fold_max
             Samples.fold_mean (repeat Samples.sample_message 6)
             results 5 info E Ei).
  - exfalso. vm_compute in E. injection E as <-. discriminate.
Defined.

(** C3 as stated fails: the record of the first message carries the full
    array and the two samples at once. *)
Lemma first_record_has_both :
  exists info,
    Samples.extract [Samples.sample_message] = Ok [info]
    /\ Extractor.has_all_values info = true
    /\ Extractor.has_samples info = true
    /\ xorb (Extractor.has_all_values info) (Extractor.has_samples info) = false.
Proof.
  eexists. split; [vm_compute; reflexivity |].
  repeat split; reflexivity.
Qed.

Section WindFacts.

Import Wind.
Local Open Scope R_scope.

Ltac decide_order :=
  repeat match goal with
         | |- context [Rlt_dec ?a ?b] => destruct (Rlt_dec a b); try lra
         | |- context [Rle_dec ?a ?b] => destruct (Rle_dec a b); try lra
         | |- context [Req_dec_T ?a ?b] => destruct (Req_dec_T a b); try lra
         end.

Lemma sign_of_negative : forall x, x < 0 -> sign_of (Real x) = Negative.
Proof. intros x H. unfold sign_of. decide_order. reflexivity. Qed.

Lemma sign_of_positive : forall x, 0 < x -> sign_of (Real x) = Positive.
Proof. intros x H. unfold sign_of. decide_order. reflexivity. Qed.

Lemma sign_of_zero : sign_of (Real 0) = PlusZero.
Proof. unfold sign_of. decide_order. reflexivity. Qed.

Lemma f64_neg_zero : f64_neg (Real 0) = NegZero.
Proof. unfold f64_neg. decide_order. reflexivity. Qed.

Lemma f64_neg_nonzero : forall x, x <> 0 -> f64_neg (Real x) = Real (- x).
Proof. intros x H. unfold f64_neg. decide_order. reflexivity. Qed.

(** A multiple of pi, in degrees. *)
Lemma degrees_of_PI :
  forall q, degrees (Real (q * PI)) = Real (q * 180).
Proof.
  intro q. unfold degrees. f_equal. field. apply PI_neq0.
Qed.

Lemma normalize_negative :
  forall x, x < 0 -> normalize (Real x) = Real (x + 360).
Proof. intros x H. unfold normalize, Rltb. simpl. decide_order. reflexivity. Qed.

Lemma normalize_nonnegative :
  forall d, 0 <= value d -> normalize d = d.
Proof. intros d H. unfold normalize, Rltb. decide_order. reflexivity. Qed.

Lemma atan_minus_1 : atan (-1) = - (PI / 4).
Proof. change (-1) with (Ropp 1). rewrite atan_opp, atan_1. reflexivity. Qed.

Lemma bearing_0_1 : bearing (Real 0) (Real 1) = 0.
Proof.
  unfold bearing, arctan2. rewrite sign_of_zero, sign_of_positive by lra.
  unfold degrees. rewrite Rmult_0_l, normalize_nonnegative; simpl; lra.
Qed.

Lemma bearing_neg0_1 : bearing NegZero (Real 1) = 0.
Proof.
  unfold bearing, arctan2. rewrite sign_of_positive by lra. cbn [sign_of].
  unfold degrees. rewrite normalize_nonnegative; simpl; lra.
Qed.

Lemma bearing_m1_0 : forall x, sign_of x = PlusZero \/ sign_of x = MinusZero ->
  bearing (Real (-1)) x = 270.
Proof.
  intros x Hx. unfold bearing, arctan2. rewrite sign_of_negative by lra.
  replace (- (PI / 2)) with (- (1 / 2) * PI) by field.
  destruct Hx as [-> | ->];
    rewrite degrees_of_PI, normalize_negative by lra; simpl; lra.
Qed.

Lemma bearing_1_0 : forall x, sign_of x = PlusZero \/ sign_of x = MinusZero ->
  bearing (Real 1) x = 90.
Proof.
  intros x Hx. unfold bearing, arctan2. rewrite sign_of_positive by lra.
  replace (PI / 2) with (1 / 2 * PI) by field.
  destruct Hx as [-> | ->];
    rewrite degrees_of_PI, normalize_nonnegative; simpl; lra.
Qed.

Lemma bearing_0_m1 : bearing (Real 0) (Real (-1)) = 180.
Proof.
  unfold bearing, arctan2. rewrite sign_of_zero, sign_of_negative by lra.
  replace PI with (1 * PI) by ring.
  rewrite degrees_of_PI, normalize_nonnegative; simpl; lra.
Qed.

Lemma bearing_neg0_m1 : bearing NegZero (Real (-1)) = 180.
Proof.
  unfold bearing, arctan2. rewrite sign_of_negative by lra. cbn [sign_of].
  replace (- PI) with (- (1) * PI) by ring.
  rewrite degrees_of_PI, normalize_negative by lra. simpl. lra.
Qed.

Lemma bearing_m1_1 : bearing (Real (-1)) (Real 1) = 315.
Proof.
  unfold bearing, arctan2.
  rewrite sign_of_negative, sign_of_positive by lra. cbn [value].
  replace (-1 / 1) with (-1) by field. rewrite atan_minus_1.
  replace (- (PI / 4)) with (- (1 / 4) * PI) by field.
  rewrite degrees_of_PI, normalize_negative by lra. simpl. lra.
Qed.

Lemma bearing_1_1 : bearing (Real 1) (Real 1) = 45.
Proof.
  unfold bearing, arctan2. rewrite !sign_of_positive by lra. cbn [value].
  replace (1 / 1) with 1 by field. rewrite atan_1.
  replace (PI / 4) with (1 / 4 * PI) by field.
  rewrite degrees_of_PI, normalize_nonnegative; simpl; lra.
Qed.

Lemma bearing_1_m1 : bearing (Real 1) (Real (-1)) = 135.
Proof.
  unfold bearing, arctan2.
  rewrite sign_of_positive, sign_of_negative by lra. cbn [value].
  replace (1 / -1) with (-1) by field. rewrite atan_minus_1.
  replace (- (PI / 4) + PI) with (3 / 4 * PI) by field.
  rewrite degrees_of_PI, normalize_nonnegative; simpl; lra.
Qed.

Lemma bearing_m1_m1 : bearing (Real (-1)) (Real (-1)) = 225.
Proof.
  unfold bearing, arctan2. rewrite !sign_of_negative by lra. cbn [value].
  replace (-1 / -1) with 1 by field. rewrite atan_1.
  replace (PI / 4 - PI) with (- (3 / 4) * PI) by field.
  rewrite degrees_of_PI, normalize_negative by lra. simpl. lra.
Qed.

(** The bearings of the table, named by the arguments of [arctan2]
    ([m1] for -1, [neg0] for the negative zero) are above; next, what
    [arctan2] is applied to, for an integer and for a float
    argument. *)
Lemma negated_int : forall n, to_f64 (neg (as_int n)) = Real (IZR (- n)).
Proof. reflexivity. Qed.

Lemma negated_float_zero : to_f64 (neg (as_float 0)) = NegZero.
Proof. unfold as_float, neg, to_f64. apply f64_neg_zero. Qed.

Lemma negated_float :
  forall n, n <> 0%Z -> to_f64 (neg (as_float n)) = Real (IZR (- n)).
Proof.
  intros n H. unfold as_float, neg, to_f64.
  rewrite f64_neg_nonzero, opp_IZR; [reflexivity |].
  intro H0. apply H. apply eq_IZR. exact H0.
Qed.

Lemma direction_bearing :
  forall inject uv,
    direction_of inject uv
    = bearing (to_f64 (neg (inject (fst uv)))) (to_f64 (neg (inject (snd uv)))).
Proof. reflexivity. Qed.

Lemma close_to_refl : forall x, close_to x x.
Proof.
  intro x. unfold close_to. replace (x - x) with 0 by ring.
  rewrite Rabs_R0. lra.
Qed.

Lemma int_directions :
  map (direction_of as_int) test_cases = computed_directions.
Proof.
  unfold test_cases, computed_directions. cbn [map].
  rewrite !direction_bearing, !negated_int. cbn [fst snd Z.opp].
  rewrite bearing_0_1, bearing_0_m1, bearing_m1_1,
    bearing_1_1, bearing_1_m1, bearing_m1_m1.
  rewrite bearing_m1_0, bearing_1_0 by (left; apply sign_of_zero).
  reflexivity.
Qed.

Lemma float_directions :
  map (direction_of as_float) test_cases = computed_directions.
Proof.
  unfold test_cases, computed_directions. cbn [map].
  rewrite !direction_bearing. cbn [fst snd].
  rewrite negated_float_zero, !negated_float by discriminate. cbn [Z.opp].
  rewrite bearing_neg0_1, bearing_neg0_m1, bearing_m1_1,
    bearing_1_1, bearing_1_m1, bearing_m1_m1.
  rewrite bearing_m1_0, bearing_1_0 by (right; reflexivity).
  reflexivity.
Qed.

Lemma table_refl :
  forall l, Forall2 close_to l l.
Proof.
  induction l as [| x l IH]; constructor; [apply close_to_refl | exact IH].
Qed.

(** C1, as the code has it.  For the eight test vectors, in the order of
    the table and whether written as integers or as floats,
    [atan2(-u, -v)] in degrees with 360 added to a negative result is 0,
    270, 180, 90, 315, 45, 135 and 225, each within 1e-9. *)
Theorem directions_of_test_cases :
  satisfies_table as_int computed_directions
  /\ satisfies_table as_float computed_directions.
Proof.
  unfold satisfies_table. rewrite int_directions, float_directions.
  split; apply table_refl.
Qed.

(** C1 as stated fails at its second entry: for u = 1, v = 0 the direction
    is 270, not 90, so the listed table does not hold. *)
Lemma specified_table_fails :
  direction_of as_int (1, 0)%Z = 270
  /\ ~ close_to 90 (direction_of as_int (1, 0)%Z)
  /\ ~ satisfies_table as_int specified_directions.
Proof.
  assert (Hwest : direction_of as_int (1, 0)%Z = 270).
  { rewrite direction_bearing, !negated_int. cbn [fst snd Z.opp].
    apply bearing_m1_0. left. apply sign_of_zero. }
  assert (Hfar : ~ close_to 90 (direction_of as_int (1, 0)%Z)).
  { unfold close_to. rewrite Hwest.
    replace (270 - 90) with 180 by ring.
    rewrite Rabs_right by lra. lra. }
  split; [exact Hwest |]. split; [exact Hfar |].
  unfold satisfies_table, specified_directions, test_cases. cbn [map].
  intro H. inversion H as [| e1 a1 es1 as1 _ H1]; subst.
  inversion H1 as [| e2 a2 es2 as2 H2 _]; subst.
  exact (Hfar H2).
Qed.

Lemma compass_180 : compass (Real 180) = "S"%string.
Proof.
  unfold compass, Rleb, Rltb. cbn [value]. decide_order. reflexivity.
Qed.

Lemma compass_0 : compass (Real 0) = "N"%string.
Proof.
  unfold compass, Rleb, Rltb. cbn [value]. decide_order. reflexivity.
Qed.

(** C9, as the code has it.  For the floating-point zeros u = 0.0 and
    v = 0.0 both negations are the negative zero, [arctan2] gives minus pi
    and the direction is 180 with speed 0; the compass ladder puts 180
    under "S". *)
Theorem degenerate_float_vector :
  calc_wind_direction (SFloat (Real 0)) (SFloat (Real 0)) = (Real 0, Real 180)
  /\ compass (Real 180) = "S"%string.
Proof.
  split; [| apply compass_180].
  unfold calc_wind_direction. f_equal.
  - unfold np_sqrt, add, square, to_f64, f64_add. cbn [value].
    replace (0 ^ 2 + 0 ^ 2) with 0 by ring. rewrite sqrt_0. reflexivity.
  - unfold neg, to_f64. rewrite f64_neg_zero.
    unfold arctan2. cbn [sign_of].
    replace (- PI) with (- (1) * PI) by ring.
    rewrite degrees_of_PI, normalize_negative by lra. f_equal. lra.
Qed.

(** C9 as stated fails on the integer zeros of a test-table entry: the
    negations are the plain 0, [arctan2] gives 0 and the direction is 0,
    under "N"; the same holds for two negative float zeros. *)
Lemma degenerate_integer_vector :
  calc_wind_direction (SInt 0) (SInt 0) = (Real 0, Real 0)
  /\ snd (calc_wind_direction (SFloat NegZero) (SFloat NegZero)) = Real 0
  /\ Real 0 <> Real 180
  /\ compass (Real 0) = "N"%string.
Proof.
  assert (Hdir : normalize (degrees (arctan2 (Real 0) (Real 0))) = Real 0).
  { unfold arctan2. rewrite sign_of_zero. unfold degrees.
    rewrite Rmult_0_l. apply normalize_nonnegative. simpl. lra. }
  split; [| split; [| split]].
  - unfold calc_wind_direction. f_equal.
    + unfold np_sqrt, add, square, to_f64. change (0 ^ 2 + 0 ^ 2)%Z with 0%Z.
      rewrite sqrt_0. reflexivity.
    + exact Hdir.
  - exact Hdir.
  - intro H. injection H as H. lra.
  - apply compass_0.
Qed.

End WindFacts.

(** * Further properties *)

Section CompareValuesFacts.

Import Comparator Notions.





(** The binary64 value of a NaN. *)
Lemma SFeqb_refl :
  forall f, f <> S754_nan -> SFeqb f f = true.
Proof.
  intros f Hf. unfold SFeqb.
  destruct f as [s | s | | s m e]; simpl.
  - reflexivity.
  - destruct s; reflexivity.
  - congruence.
  - rewrite Z.compare_refl, Pos.compare_cont_refl. destruct s; reflexivity.
Qed.

Lemma nan_spec :
  forall x : float, PrimFloat.is_nan x = true -> Prim2SF x = S754_nan.
Proof.
  intros x Hx. unfold PrimFloat.is_nan in Hx. rewrite eqb_spec in Hx.
  destruct (Prim2SF x) as [s | s | | s m e] eqn:E; try reflexivity;
    rewrite SFeqb_refl in Hx by discriminate; discriminate.
Qed.

Lemma SFcompare_nan_r : forall f, SFcompare f S754_nan = None.
Proof. destruct f; reflexivity. Qed.

Lemma Zcompare_SF_nan : forall n, Zcompare_SF n S754_nan = FNotComparable.
Proof. reflexivity. Qed.

(** A NaN is on neither side of a true [>]. *)
Lemma py_gt_not_nan :
  forall a b, py_gt a b = true -> is_nan a = false /\ is_nan b = false.
Proof.
  intros a b H. unfold py_gt in H.
  split.
  - destruct (is_nan a) eqn:Ea; [| reflexivity]. exfalso.
    destruct a as [m | x]; [discriminate |]. simpl in Ea.
    apply nan_spec in Ea. destruct b as [n | y]; simpl in H.
    + rewrite Ea in H. discriminate.
    + rewrite compare_spec, Ea in H. discriminate.
  - destruct (is_nan b) eqn:Eb; [| reflexivity]. exfalso.
    destruct b as [n | y]; [discriminate |]. simpl in Eb.
    apply nan_spec in Eb. destruct a as [m | x]; simpl in H.
    + rewrite Eb in H. discriminate.
    + rewrite compare_spec, Eb, SFcompare_nan_r in H. discriminate.
Qed.

Lemma scan_step_tracked :
  forall a b tolerance st i pv sv,
    nth_error a i = Some pv -> nth_error b i = Some sv ->
    tracked a b st -> tracked a b (scan_step tolerance st i pv sv).
Proof.
  intros a b tolerance st i pv sv Ha Hb [Hnan Hmax].
  assert (Hst1 :
    tracked a b (if py_gt (py_abs (py_sub pv sv)) (max_diff st)
                 then {| max_diff := py_abs (py_sub pv sv);
                         max_diff_idx := i; diffs := diffs st |}
                 else st)).
  { destruct (py_gt (py_abs (py_sub pv sv)) (max_diff st)) eqn:E.
    - split; simpl.
      + apply (py_gt_not_nan _ _ E).
      + right. exists pv, sv. repeat split; assumption.
    - split; assumption. }
  unfold scan_step.
  destruct (py_gt (py_abs (py_sub pv sv)) tolerance); [| exact Hst1].
  destruct Hst1 as [H1 H2]. split; simpl; assumption.
Qed.

Lemma scan_loop_tracked :
  forall a b tolerance ps ss i st,
    (forall j pv, nth_error ps j = Some pv -> nth_error a (i + j) = Some pv) ->
    (forall j sv, nth_error ss j = Some sv -> nth_error b (i + j) = Some sv) ->
    tracked a b st -> tracked a b (scan_loop tolerance i ps ss st).
Proof.
  intros a b tolerance ps.
  induction ps as [| pv ps IH]; intros ss i st Hps Hss Hst; [exact Hst |].
  destruct ss as [| sv ss]; [exact Hst |]. simpl.
  apply IH.
  - intros j x Hj. replace (S i + j)%nat with (i + S j)%nat by lia.
    apply Hps. exact Hj.
  - intros j x Hj. replace (S i + j)%nat with (i + S j)%nat by lia.
    apply Hss. exact Hj.
  - apply scan_step_tracked; [| | exact Hst].
    + rewrite <- (Nat.add_0_r i). apply Hps. reflexivity.
    + rewrite <- (Nat.add_0_r i). apply Hss. reflexivity.
Qed.

(** X2.  The maximum difference in a summary is never NaN; it is the
    initial 0 or the absolute difference of the two elements at one
    position, and in a failing summary the index printed with it is that
    position (index 0 going with the initial 0). *)
Theorem compare_values_reported_max :
  forall a b tolerance,
    List.length a = List.length b ->
    match snd (compare_values a b tolerance) with
    | LengthMismatch _ _ => False
    | MaxDiff m =>
        is_nan m = false
        /\ (m = PInt 0
            \/ exists idx pv sv,
                 nth_error a idx = Some pv /\ nth_error b idx = Some sv
                 /\ m = abs_diff pv sv)
    | ValuesDiffer m idx _ =>
        is_nan m = false
        /\ (m = PInt 0 /\ idx = 0%nat
            \/ exists pv sv,
                 nth_error a idx = Some pv /\ nth_error b idx = Some sv
                 /\ m = abs_diff pv sv)
    end.
Proof.
  intros a b tolerance Hlen. unfold compare_values.
  rewrite Hlen, Nat.eqb_refl. simpl.
  assert (Hinit : tracked a b scan_init).
  { split; [reflexivity | left; split; reflexivity]. }
  pose proof (scan_loop_tracked a b tolerance a b 0 scan_init
                (fun j pv H => H) (fun j sv H => H) Hinit) as [Hnan Hmax].
  destruct (diffs (scan_loop tolerance 0 a b scan_init)); simpl.
  - split; [exact Hnan |].
    destruct Hmax as [[H0 _] | [pv [sv H]]]; [left; exact H0 |].
    right. eexists. exists pv, sv. exact H.
  - split; assumption.
Qed.

Lemma compare_values_reported_max_witness :
  List.length [PFloat 1; PFloat nan; PFloat 3]
  = List.length [PFloat 1.5; PFloat 2; PFloat 3.25]
  /\ match snd (compare_values [PFloat 1; PFloat nan; PFloat 3]
                  [PFloat 1.5; PFloat 2; PFloat 3.25] default_tolerance) with
     | ValuesDiffer m idx _ => is_nan m = false /\ idx = 0%nat
     | _ => False
     end.
Proof.
  split; [reflexivity |].
  pose proof (compare_values_reported_max [PFloat 1; PFloat nan; PFloat 3]
                [PFloat 1.5; PFloat 2; PFloat 3.25] default_tolerance eq_refl)
    as H.
  destruct (snd (compare_values [PFloat 1; PFloat nan; PFloat 3]
                   [PFloat 1.5; PFloat 2; PFloat 3.25] default_tolerance))
    as [n m | m idx n | m] eqn:E; try (vm_compute in E; discriminate).
  destruct H as [Hnan _]. split; [exact Hnan |].
  vm_compute in E. injection E as _ Hidx _. symmetry. exact Hidx.
Defined.

(** [>] on binary64 values is transitive and irreflexive. *)
Lemma SFcompare_gt_trans :
  forall f g h,
    SFcompare f g = Some Gt -> SFcompare g h = Some Gt ->
    SFcompare f h = Some Gt.
Proof.
  intros f g h Hfg Hgh.
  destruct f as [sf | sf | | sf mf ef]; destruct g as [sg | sg | | sg mg eg];
    destruct h as [sh | sh | | sh mh eh]; simpl in *;
    try discriminate; try reflexivity;
    try (destruct sf; destruct sg; destruct sh; simpl in *; congruence).
  destruct sf; destruct sg; destruct sh; simpl in *;
    try discriminate; try reflexivity;
    change (Pos.compare_cont Eq) with Pos.compare in *;
    destruct (Z.compare_spec ef eg); destruct (Z.compare_spec eg eh);
    destruct (Z.compare_spec ef eh);
    try discriminate; try reflexivity; try lia;
    destruct (Pos.compare_spec mf mg); destruct (Pos.compare_spec mg mh);
    destruct (Pos.compare_spec mf mh);
    simpl in *; try discriminate; try reflexivity; lia.
Qed.

Lemma SFcompare_gt_irrefl : forall f, SFcompare f f <> Some Gt.
Proof.
  intros f. destruct f as [s | s | | s m e]; simpl; try discriminate.
  - destruct s; discriminate.
  - rewrite Z.compare_refl, Pos.compare_cont_refl. destruct s; discriminate.
Qed.

(** A float above a float above 0 is above 0. *)
Lemma Zcompare_SF_zero_positive :
  forall s m e,
    Zcompare_SF 0 (S754_finite s m e) = FLt <-> s = false.
Proof.
  intros s m e. unfold Zcompare_SF.
  destruct (0 <=? e)%Z eqn:E.
  - apply Z.leb_le in E.
    assert (Hpow : (0 < 2 ^ e)%Z) by (apply Z.pow_pos_nonneg; lia).
    destruct s.
    + assert (H : (Z.neg m * 2 ^ e < 0)%Z) by (apply Z.mul_neg_pos; lia).
      destruct (Z.compare_spec 0 (Z.neg m * 2 ^ e)); simpl;
        split; intro; try discriminate; lia.
    + assert (H : (0 < Z.pos m * 2 ^ e)%Z) by (apply Z.mul_pos_pos; lia).
      destruct (Z.compare_spec 0 (Z.pos m * 2 ^ e)); simpl;
        split; intro; try reflexivity; lia.
  - rewrite Z.mul_0_l. destruct s; simpl; split; intro;
      try discriminate; reflexivity.
Qed.

Lemma Zcompare_SF_zero_trans :
  forall f g,
    SFcompare f g = Some Gt -> Zcompare_SF 0 g = FLt -> Zcompare_SF 0 f = FLt.
Proof.
  intros f g Hfg Hg.
  destruct g as [sg | sg | | sg mg eg].
  - simpl in Hg. discriminate.
  - simpl in Hg. destruct sg; [discriminate |].
    destruct f as [sf | sf | | sf mf ef]; simpl in Hfg; try discriminate;
      destruct sf; discriminate.
  - discriminate.
  - apply Zcompare_SF_zero_positive in Hg. subst sg.
    destruct f as [sf | sf | | sf mf ef]; simpl in Hfg; try discriminate.
    + destruct sf; [discriminate | reflexivity].
    + apply Zcompare_SF_zero_positive. destruct sf; [discriminate | reflexivity].
Qed.

Lemma py_gt_float_trans :
  forall x y m,
    float_or_zero m ->
    py_gt (PFloat x) (PFloat y) = true -> py_gt (PFloat y) m = true ->
    py_gt (PFloat x) m = true.
Proof.
  intros x y m Hm Hxy Hym. unfold py_gt in *. simpl in Hxy.
  rewrite compare_spec in Hxy.
  assert (Hsf : SFcompare (Prim2SF x) (Prim2SF y) = Some Gt).
  { destruct (SFcompare (Prim2SF x) (Prim2SF y)) as [[| |] |];
      simpl in Hxy; try discriminate; reflexivity. }
  destruct Hm as [-> | Hm].
  - simpl in *.
    assert (Hy : Zcompare_SF 0 (Prim2SF y) = FLt).
    { destruct (Zcompare_SF 0 (Prim2SF y)); simpl in Hym;
        try discriminate; reflexivity. }
    rewrite (Zcompare_SF_zero_trans _ _ Hsf Hy). reflexivity.
  - destruct m as [n | z]; [discriminate |]. simpl in *.
    rewrite compare_spec in *.
    assert (Hyz : SFcompare (Prim2SF y) (Prim2SF z) = Some Gt).
    { destruct (SFcompare (Prim2SF y) (Prim2SF z)) as [[| |] |];
        simpl in Hym; try discriminate; reflexivity. }
    rewrite (SFcompare_gt_trans _ _ _ Hsf Hyz). reflexivity.
Qed.

Lemma py_gt_float_irrefl : forall x, py_gt (PFloat x) (PFloat x) = false.
Proof.
  intro x. unfold py_gt. simpl. rewrite compare_spec.
  pose proof (SFcompare_gt_irrefl (Prim2SF x)) as H.
  destruct (SFcompare (Prim2SF x) (Prim2SF x)) as [[| |] |];
    simpl; try reflexivity. congruence.
Qed.

Lemma abs_diff_float :
  forall pv sv,
    is_float pv = true -> is_float sv = true ->
    exists d, abs_diff pv sv = PFloat d.
Proof.
  intros [m | x] [n | y] Hp Hs; try discriminate.
  eexists. reflexivity.
Qed.

(** Replacing the maximum by a greater float keeps below it whatever was
    below it. *)
Lemma below_new_max :
  forall e d m,
    float_or_zero m -> is_float e = true ->
    py_gt (PFloat d) m = true -> py_gt e m = false ->
    py_gt e (PFloat d) = false.
Proof.
  intros e d m Hm He Hd Hem. destruct e as [n | x]; [discriminate |].
  destruct (py_gt (PFloat x) (PFloat d)) eqn:E; [| reflexivity].
  rewrite (py_gt_float_trans x d m Hm E Hd) in Hem. discriminate.
Qed.

Lemma scan_loop_bounded :
  forall tolerance ps ss i st,
    Forall (fun v => is_float v = true) ps ->
    Forall (fun v => is_float v = true) ss ->
    List.length ps = List.length ss ->
    float_or_zero (max_diff st) ->
    float_or_zero (max_diff (scan_loop tolerance i ps ss st))
    /\ (forall e, is_float e = true -> py_gt e (max_diff st) = false ->
        py_gt e (max_diff (scan_loop tolerance i ps ss st)) = false)
    /\ Forall2 (fun pv sv =>
                  py_gt (abs_diff pv sv)
                        (max_diff (scan_loop tolerance i ps ss st)) = false)
               ps ss.
Proof.
  intros tolerance ps. induction ps as [| pv ps IH]; intros ss i st Hps Hss Hlen Hm.
  - destruct ss; [| discriminate]. simpl. repeat split; auto.
  - destruct ss as [| sv ss]; [discriminate |]. simpl in Hlen.
    injection Hlen as Hlen.
    inversion Hps as [| ? ? Hpv Hps']; subst.
    inversion Hss as [| ? ? Hsv Hss']; subst.
    simpl.
    destruct (abs_diff_float pv sv Hpv Hsv) as [d Hd].
    set (st1 := scan_step tolerance st i pv sv).
    assert (Hst1 : max_diff st1
                   = if py_gt (PFloat d) (max_diff st) then PFloat d
                     else max_diff st).
    { unfold st1, scan_step. fold (abs_diff pv sv). rewrite Hd.
      destruct (py_gt (PFloat d) (max_diff st));
        destruct (py_gt (PFloat d) tolerance); reflexivity. }
    assert (Hm1 : float_or_zero (max_diff st1)).
    { rewrite Hst1. destruct (py_gt (PFloat d) (max_diff st));
        [right; reflexivity | exact Hm]. }
    assert (Hgrow : forall e, is_float e = true ->
                      py_gt e (max_diff st) = false ->
                      py_gt e (max_diff st1) = false).
    { intros e He Hem. rewrite Hst1.
      destruct (py_gt (PFloat d) (max_diff st)) eqn:E; [| exact Hem].
      exact (below_new_max e d (max_diff st) Hm He E Hem). }
    assert (Hcur : py_gt (PFloat d) (max_diff st1) = false).
    { rewrite Hst1. destruct (py_gt (PFloat d) (max_diff st)) eqn:E;
        [apply py_gt_float_irrefl | exact E]. }
    destruct (IH ss (S i) st1 Hps' Hss' Hlen Hm1) as [Hfin [Hmono Hall]].
    repeat split.
    + exact Hfin.
    + intros e He Hem. apply Hmono; [exact He |]. apply Hgrow; assumption.
    + constructor; [| exact Hall].
      rewrite Hd. apply Hmono; [reflexivity | exact Hcur].
Qed.

(** X3.  On lists of floats of equal length the maximum difference in the
    summary is a maximum: no elementwise absolute difference is greater
    than it. *)
Theorem compare_values_max_is_upper_bound :
  forall a b tolerance m,
    List.length a = List.length b ->
    Forall (fun v => is_float v = true) a ->
    Forall (fun v => is_float v = true) b ->
    reported_max (snd (compare_values a b tolerance)) = Some m ->
    Forall2 (fun pv sv => py_gt (abs_diff pv sv) m = false) a b.
Proof.
  intros a b tolerance m Hlen Ha Hb Hm. unfold compare_values in Hm.
  rewrite Hlen, Nat.eqb_refl in Hm. simpl in Hm.
  destruct (scan_loop_bounded tolerance a b 0 scan_init Ha Hb Hlen
              (or_introl eq_refl)) as [_ [_ Hall]].
  destruct (diffs (scan_loop tolerance 0 a b scan_init));
    simpl in Hm; injection Hm as <-; exact Hall.
Qed.

Lemma compare_values_max_is_upper_bound_witness :
  Forall2 (fun pv sv => py_gt (abs_diff pv sv) (PFloat 0.5) = false)
          [PFloat 1; PFloat 2; PFloat 3] [PFloat 1.5; PFloat 2; PFloat 3.25].
Proof.
  apply (compare_values_max_is_upper_bound
           [PFloat 1; PFloat 2; PFloat 3] [PFloat 1.5; PFloat 2; PFloat 3.25]
           default_tolerance (PFloat 0.5) eq_refl).
  - repeat constructor.
  - repeat constructor.
  - vm_compute. reflexivity.
Defined.

(** A float minus itself is the positive zero, or NaN (for NaN and the
    infinities). *)
Lemma self_difference :
  forall x : float,
    PrimFloat.abs (x - x) = 0%float
    \/ PrimFloat.is_nan (PrimFloat.abs (x - x)) = true.
Proof.
  intro x.
  assert (H : Prim2SF (PrimFloat.abs (x - x)) = S754_zero false
              \/ Prim2SF (PrimFloat.abs (x - x)) = S754_nan).
  { rewrite abs_spec, sub_spec. unfold SF64sub, SFsub.
    destruct (Prim2SF x) as [s | s | | s m e].
    - left. destruct s; reflexivity.
    - right. destruct s; reflexivity.
    - right. reflexivity.
    - left. rewrite Z.sub_diag. reflexivity. }
  destruct H as [H | H].
  - left. apply Prim2SF_inj. rewrite H. reflexivity.
  - right. unfold PrimFloat.is_nan. rewrite eqb_spec, H. reflexivity.
Qed.

Lemma py_gt_nan_l :
  forall x t, PrimFloat.is_nan x = true -> py_gt (PFloat x) t = false.
Proof.
  intros x t Hx. destruct (py_gt (PFloat x) t) eqn:E; [| reflexivity].
  destruct (py_gt_not_nan _ _ E) as [H _]. simpl in H. congruence.
Qed.

(** The difference of a number with itself exceeds no tolerance that
    admits a zero difference. *)
Lemma self_diff_within :
  forall v tolerance,
    admits_zero tolerance -> py_gt (abs_diff v v) tolerance = false.
Proof.
  intros v tolerance [Hint Hfloat]. destruct v as [n | x]; unfold abs_diff; simpl.
  - rewrite Z.sub_diag. exact Hint.
  - destruct (self_difference x) as [H | H].
    + rewrite H. exact Hfloat.
    + apply py_gt_nan_l. exact H.
Qed.

Lemma admits_zero_0 : admits_zero (PInt 0).
Proof. split; vm_compute; reflexivity. Qed.

Lemma admits_zero_default : admits_zero default_tolerance.
Proof. split; vm_compute; reflexivity. Qed.

Lemma scan_step_self :
  forall tolerance i v,
    admits_zero tolerance -> scan_step tolerance scan_init i v v = scan_init.
Proof.
  intros tolerance i v Ht. unfold scan_step. fold (abs_diff v v).
  change (max_diff scan_init) with (PInt 0).
  rewrite (self_diff_within v (PInt 0) admits_zero_0).
  rewrite (self_diff_within v tolerance Ht). reflexivity.
Qed.

Lemma scan_loop_self :
  forall tolerance a i,
    admits_zero tolerance -> scan_loop tolerance i a a scan_init = scan_init.
Proof.
  intros tolerance a. induction a as [| v a IH]; intros i Ht; [reflexivity |].
  simpl. rewrite scan_step_self by exact Ht. apply IH. exact Ht.
Qed.

(** X4.  A list compared with itself passes with maximum difference 0,
    whatever it holds (NaN and infinities included), under every tolerance
    that a zero difference does not exceed. *)
Theorem compare_values_self :
  forall a tolerance,
    admits_zero tolerance ->
    compare_values a a tolerance = (true, MaxDiff (PInt 0)).
Proof.
  intros a tolerance Ht. unfold compare_values.
  rewrite Nat.eqb_refl. simpl. rewrite scan_loop_self by exact Ht.
  reflexivity.
Qed.

Lemma compare_values_self_witness :
  admits_zero default_tolerance
  /\ compare_values [PFloat 1.5; PFloat nan; PFloat infinity; PInt 7]
                    [PFloat 1.5; PFloat nan; PFloat infinity; PInt 7]
                    default_tolerance
     = (true, MaxDiff (PInt 0)).
Proof.
  split; [exact admits_zero_default |].
  apply (compare_values_self
           [PFloat 1.5; PFloat nan; PFloat infinity; PInt 7] default_tolerance).
  exact admits_zero_default.
Defined.

End CompareValuesFacts.

Section MainFacts.

Import Comparator Notions.
Local Open Scope run_scope.

(** *** Rules for [keeps] *)

Lemma keeps_ret :
  forall (A : Type) (P : run -> Prop) (a : A), keeps P (ret a).
Proof. intros A P a st st' r HP H. injection H as <- _. exact HP. Qed.

Lemma keeps_lift :
  forall (A : Type) (P : run -> Prop) (x : result A), keeps P (lift x).
Proof. intros A P x st st' r HP H. injection H as <- _. exact HP. Qed.

Lemma keeps_get_run : forall P : run -> Prop, keeps P get_run.
Proof. intros P st st' r HP H. injection H as <- _. exact HP. Qed.

Lemma keeps_bind :
  forall (A B : Type) (P : run -> Prop) (m : M A) (k : A -> M B),
    keeps P m -> (forall a, keeps P (k a)) -> keeps P (bind m k).
Proof.
  intros A B P m k Hm Hk st st' r HP H. unfold bind in H.
  destruct (m st) as [st1 [a | e]] eqn:E.
  - exact (Hk a st1 st' r (Hm st st1 (Ok a) HP E) H).
  - injection H as <- _. exact (Hm st st1 (Raise e) HP E).
Qed.

(** After [lift x] the continuation only runs on what [x] returned. *)
Lemma keeps_bind_lift :
  forall (A B : Type) (P : run -> Prop) (x : result A) (k : A -> M B),
    (forall a, x = Ok a -> keeps P (k a)) -> keeps P (bind (lift x) k).
Proof.
  intros A B P x k Hk st st' r HP H. unfold bind, lift in H.
  destruct x as [a | e].
  - exact (Hk a eq_refl st st' r HP H).
  - injection H as <- _. exact HP.
Qed.

Lemma keeps_when :
  forall (P : run -> Prop) (b : bool) (m : M unit),
    keeps P m -> keeps P (when b m).
Proof.
  intros P b m Hm. unfold when. destruct b; [exact Hm | apply keeps_ret].
Qed.

Lemma keeps_for_each :
  forall (A : Type) (P : run -> Prop) (xs : list A) (body : nat -> A -> M unit)
         (i : nat),
    (forall j x, In x xs -> keeps P (body j x)) -> keeps P (for_each i xs body).
Proof.
  intros A P xs body. induction xs as [| x xs IH]; intros i Hbody; simpl.
  - apply keeps_ret.
  - apply keeps_bind.
    + apply Hbody. left. reflexivity.
    + intros _. apply IH. intros j y Hy. apply Hbody. right. exact Hy.
Qed.

Lemma keeps_for_range :
  forall (P : run -> Prop) (n : nat) (body : nat -> M unit),
    (forall j, (j < n)%nat -> keeps P (body j)) -> keeps P (for_range n body).
Proof.
  intros P n body Hbody. unfold for_range. apply keeps_for_each.
  intros _ j Hj. apply Hbody. apply in_seq in Hj. lia.
Qed.

Lemma keeps_print :
  forall (P : run -> Prop) (l : line), output_blind P -> keeps P (print l).
Proof.
  intros P l HP st st' r Hst H. injection H as <- _. apply HP. exact Hst.
Qed.

Lemma keeps_clear_all_match :
  forall P : run -> Prop,
    (forall st, P st ->
       P {| out := out st; found := found st; all_match := false |}) ->
    keeps P clear_all_match.
Proof.
  intros P HP st st' r Hst H. injection H as <- _. apply HP. exact Hst.
Qed.

Lemma well_sorted_blind : forall count, output_blind (well_sorted count).
Proof. intros count st l H. exact H. Qed.

Lemma items_append :
  forall c' c i i' iss,
    In i' (items c' (append_issue c i iss)) ->
    In i' (items c' iss) \/ c' = c /\ i' = i.
Proof.
  intros c' c i i' iss Hin.
  destruct c; destruct c'; simpl in Hin;
    try (left; exact Hin);
    apply in_app_or in Hin; destruct Hin as [Hin | [<- | []]];
    try (left; exact Hin); right; split; reflexivity.
Qed.

Lemma well_sorted_record :
  forall count c i,
    category_of i = c -> (1 <= msg_num_of i <= count)%nat ->
    keeps (well_sorted count) (record_issue c i).
Proof.
  intros count c i Hc Hn st st' r Hst H. injection H as <- _.
  intros c' i' Hin. simpl in Hin.
  apply items_append in Hin. destruct Hin as [Hin | [-> ->]].
  - exact (Hst _ _ Hin).
  - split; assumption.
Qed.

(** The rules are chosen by the shape of the command, the leaves by
    [leaf]. *)
Ltac keeps_structure leaf :=
  repeat first
    [ leaf
    | lazymatch goal with
      | |- keeps _ (ret _) => apply keeps_ret
      | |- keeps _ (lift _) => apply keeps_lift
      | |- keeps _ get_run => apply keeps_get_run
      | |- keeps _ (bind _ _) => apply keeps_bind; [| intro]
      | |- keeps _ (when _ _) => apply keeps_when
      | |- keeps _ (for_range _ _) => apply keeps_for_range; intros ? ?
      | |- keeps _ (for_each _ _ _) => apply keeps_for_each; intros ? ? ?
      | |- keeps _ (let (_, _) := ?e in _) => destruct e
      | |- keeps _ (if ?b then _ else _) => destruct b
      | |- keeps _ (match ?e with [] => _ | _ :: _ => _ end) => destruct e
      end ].

Ltac well_sorted_leaf :=
  idtac;
  lazymatch goal with
  | |- keeps _ (print _) => apply keeps_print; apply well_sorted_blind
  | |- keeps _ clear_all_match =>
      apply keeps_clear_all_match; intros ? ?; assumption
  | |- keeps _ (record_issue _ _) =>
      apply well_sorted_record; [reflexivity | simpl; lia]
  end.

Ltac unfold_pass :=
  unfold comparison_pass, compare_message, compare_payload, compare_all_values,
    compare_samples, compare_statistic.

Ltac unfold_report :=
  unfold report, report_verdict, report_category, first_message_detail.

Lemma pass_well_sorted :
  forall pg sg,
    keeps (well_sorted (List.length pg)) (comparison_pass pg sg).
Proof.
  intros pg sg. unfold_pass. keeps_structure well_sorted_leaf.
Qed.

Lemma report_well_sorted :
  forall count pg sg, keeps (well_sorted count) (report pg sg).
Proof.
  intros count pg sg. unfold_report. keeps_structure well_sorted_leaf.
Qed.

(** *** Running [main] step by step *)

Lemma bind_print_eq :
  forall (B : Type) (l : line) (k : unit -> M B) st,
    bind (print l) k st = k tt (with_output st [l]).
Proof. reflexivity. Qed.

Lemma bind_get_run_eq :
  forall (B : Type) (k : run -> M B) st, bind get_run k st = k st st.
Proof. reflexivity. Qed.

Lemma bind_bind_eq :
  forall (A B C : Type) (m : M A) (k : A -> M B) (k' : B -> M C) st,
    bind (bind m k) k' st = bind m (fun a => bind (k a) k') st.
Proof.
  intros A B C m k k' st. unfold bind.
  destruct (m st) as [st1 [a | e]]; reflexivity.
Qed.

Lemma bind_cases :
  forall (A B : Type) (m : M A) (k : A -> M B) st st' r,
    bind m k st = (st', r) ->
    (exists a st1, m st = (st1, Ok a) /\ k a st1 = (st', r))
    \/ (exists e, m st = (st', Raise e) /\ r = Raise e).
Proof.
  intros A B m k st st' r H. unfold bind in H.
  destruct (m st) as [st1 [a | e]].
  - left. exists a, st1. split; [reflexivity | exact H].
  - right. injection H as <- <-. exists e. split; reflexivity.
Qed.

(** With equal counts, [main] is the comparison pass followed by the
    report; with unequal counts it stops after the error line. *)
Lemma main_phases :
  forall pg sg,
    (List.length pg =? List.length sg)%nat = true ->
    main pg sg run_init
    = bind (comparison_pass pg sg) (fun _ => report pg sg) (pass_start pg sg).
Proof.
  intros pg sg Hlen. unfold main.
  rewrite !bind_print_eq. rewrite Hlen. cbv beta iota delta [negb].
  rewrite bind_print_eq. reflexivity.
Qed.

Lemma main_stops :
  forall pg sg,
    (List.length pg =? List.length sg)%nat = false ->
    main pg sg run_init
    = ({| out := [ Banner "PYGRIB vs SWIFTGRIB DEEP COMPARISON";
                   MessageCounts (List.length pg) (List.length sg);
                   CountMismatchError ];
          found := no_issues;
          all_match := true |}, Ok tt).
Proof.
  intros pg sg Hlen. unfold main.
  rewrite !bind_print_eq. rewrite Hlen. reflexivity.
Qed.

(** X5.  However a run ends, every entry of [issues] sits under the
    category of its kind and names a message between 1 and the message
    count; the "time" category is never written to. *)
Theorem issues_well_sorted :
  forall pygrib_data swift_data st' r,
    main pygrib_data swift_data run_init = (st', r) ->
    well_sorted (List.length pygrib_data) st' /\ time (found st') = [].
Proof.
  intros pg sg st' r H.
  assert (Hs : well_sorted (List.length pg) st').
  { destruct (List.length pg =? List.length sg)%nat eqn:Hlen.
    - rewrite (main_phases pg sg Hlen) in H.
      refine (keeps_bind _ _ _ _ _ (pass_well_sorted pg sg)
                (fun _ => report_well_sorted _ pg sg) _ st' r _ H).
      intros c i Hin. destruct c; contradiction.
    - rewrite (main_stops pg sg Hlen) in H. injection H as <- _.
      intros c i Hin. destruct c; contradiction. }
  split; [exact Hs |].
  destruct (time (found st')) as [| i rest] eqn:E; [reflexivity |].
  destruct (Hs Time i) as [Hc _]; [simpl; rewrite E; left; reflexivity |].
  destruct i; discriminate.
Qed.

Lemma issues_well_sorted_witness :
  well_sorted 1 (Samples.final [Samples.u_wind] [Samples.u_wind_other_id])
  /\ time (found (Samples.final [Samples.u_wind] [Samples.u_wind_other_id])) = [].
Proof.
  apply (issues_well_sorted [Samples.u_wind] [Samples.u_wind_other_id] _
           (snd (main [Samples.u_wind] [Samples.u_wind_other_id] run_init))).
  unfold Samples.final.
  destruct (main [Samples.u_wind] [Samples.u_wind_other_id] run_init).
  reflexivity.
Defined.

(** *** The verdict *)

Lemma keeps_is_keeps_ok :
  forall (A : Type) (P : run -> Prop) (m : M A), keeps P m -> keeps_ok P m.
Proof. intros A P m H st st' a HP E. exact (H st st' (Ok a) HP E). Qed.

Lemma keeps_ok_bind :
  forall (A B : Type) (P : run -> Prop) (m : M A) (k : A -> M B),
    keeps_ok P m -> (forall a, keeps_ok P (k a)) -> keeps_ok P (bind m k).
Proof.
  intros A B P m k Hm Hk st st' b HP H.
  apply bind_ok in H. destruct H as [a [st1 [H1 H2]]].
  exact (Hk a st1 st' b (Hm st st1 a HP H1) H2).
Qed.

Lemma keeps_ok_for_each :
  forall (A : Type) (P : run -> Prop) (xs : list A) (body : nat -> A -> M unit)
         (i : nat),
    (forall j x, keeps_ok P (body j x)) -> keeps_ok P (for_each i xs body).
Proof.
  intros A P xs body. induction xs as [| x xs IH]; intros i Hbody; simpl.
  - apply keeps_is_keeps_ok, keeps_ret.
  - apply keeps_ok_bind; [apply Hbody |]. intros _. apply IH. exact Hbody.
Qed.

Lemma keeps_ok_when :
  forall (P : run -> Prop) (b : bool) (m : M unit),
    keeps_ok P m -> keeps_ok P (when b m).
Proof.
  intros P b m Hm. unfold when. destruct b; [exact Hm |].
  apply keeps_is_keeps_ok, keeps_ret.
Qed.

Lemma has_array_issue_record :
  forall c i, keeps has_array_issue (record_issue c i).
Proof.
  intros c i st st' r [j [Hin Hj]] H. injection H as <- _.
  exists j. split; [| exact Hj]. simpl.
  destruct c; simpl; try exact Hin. apply in_or_app. left. exact Hin.
Qed.

Lemma cleared_implies_issue_record :
  forall c i, keeps cleared_implies_issue (record_issue c i).
Proof.
  intros c i st st' r Hst H Hflag.
  assert (Hf : all_match st = false).
  { injection H as <- _. exact Hflag. }
  exact (has_array_issue_record c i st st' r (Hst Hf) H).
Qed.

Lemma values_append :
  forall c i j iss,
    In j (values (append_issue c i iss)) -> In j (values iss) \/ j = i.
Proof.
  intros c i j iss Hin.
  change (values (append_issue c i iss))
    with (items Values (append_issue c i iss)) in Hin.
  apply items_append in Hin. destruct Hin as [Hin | [_ ->]];
    [left; exact Hin | right; reflexivity].
Qed.

Lemma flag_implies_clean_record :
  forall c i, is_array_issue i = false ->
    keeps flag_implies_clean (record_issue c i).
Proof.
  intros c i Hi st st' r Hst H. injection H as <- _.
  intros Hflag j Hin. simpl in Hin. apply values_append in Hin.
  destruct Hin as [Hin | ->]; [exact (Hst Hflag j Hin) | exact Hi].
Qed.

Lemma not_printed_print :
  forall l l', l' <> l -> keeps (not_printed l) (print l').
Proof.
  intros l l' Hne st st' r Hst H. injection H as <- _.
  intro Hin. simpl in Hin. apply in_app_or in Hin.
  destruct Hin as [Hin | [Heq | []]]; [exact (Hst Hin) | exact (Hne Heq)].
Qed.

Lemma not_printed_silent :
  forall l (m : M unit),
    (forall st, out (fst (m st)) = out st) -> keeps (not_printed l) m.
Proof.
  intros l m Hm st st' r Hst H. unfold not_printed.
  specialize (Hm st). rewrite H in Hm. simpl in Hm. rewrite Hm. exact Hst.
Qed.

(** Leaves for a property that reads neither the output nor the flag. *)
Ltac blind_leaf :=
  idtac;
  lazymatch goal with
  | |- keeps _ (print _) => apply keeps_print; intros ? ? ?; assumption
  | |- keeps _ clear_all_match =>
      apply keeps_clear_all_match; intros ? ?; assumption
  end.

Ltac flag_cleared_leaf :=
  idtac;
  lazymatch goal with
  | |- keeps _ (print _) => apply keeps_print; intros ? ? ?; assumption
  | |- keeps _ clear_all_match =>
      apply keeps_clear_all_match; intros ? ?; reflexivity
  | |- keeps _ (record_issue _ _) =>
      let E := fresh in
      let H' := fresh in
      intros ? ? ? H' E; injection E as <- _; exact H'
  end.

Ltac has_array_leaf :=
  idtac;
  lazymatch goal with
  | |- keeps _ (print _) => apply keeps_print; intros ? ? ?; assumption
  | |- keeps _ clear_all_match =>
      apply keeps_clear_all_match; intros ? ?; assumption
  | |- keeps _ (record_issue _ _) => apply has_array_issue_record
  end.

Ltac not_printed_leaf l :=
  idtac;
  lazymatch goal with
  | |- keeps _ (print _) =>
      apply not_printed_print; intro; subst l; discriminate
  | |- keeps _ clear_all_match =>
      apply not_printed_silent; intro; reflexivity
  | |- keeps _ (record_issue _ _) =>
      apply not_printed_silent; intro; reflexivity
  end.

(** The comparison pass and the detail report print no verdict line. *)
Lemma pass_not_printed :
  forall l pg sg,
    is_verdict l = true -> keeps (not_printed l) (comparison_pass pg sg).
Proof.
  intros l pg sg Hl. unfold_pass.
  keeps_structure ltac:(not_printed_leaf l).
Qed.

Lemma detail_not_printed :
  forall l pg sg,
    is_verdict l = true -> keeps (not_printed l) (first_message_detail pg sg).
Proof.
  intros l pg sg Hl. unfold first_message_detail, field_row.
  keeps_structure ltac:(not_printed_leaf l).
Qed.

Lemma categories_not_printed :
  forall l iss,
    is_verdict l = true ->
    keeps (not_printed l)
          (for_each 0 categories (fun _ c => report_category c iss)).
Proof.
  intros l iss Hl. unfold report_category.
  keeps_structure ltac:(not_printed_leaf l).
Qed.

(** Once the flag is cleared it stays cleared; clearing it is the only
    way to an array entry. *)
Lemma keeps_after_clear :
  forall k : unit -> M unit,
    keeps flag_cleared (k tt) ->
    keeps flag_implies_clean (bind clear_all_match k).
Proof.
  intros k Hk st st' r _ H. unfold bind, clear_all_match in H.
  assert (Hc : flag_cleared st').
  { refine (Hk _ st' r _ H). reflexivity. }
  intro Hflag. unfold flag_cleared in Hc. congruence.
Qed.

Ltac flag_implies_clean_leaf :=
  idtac;
  lazymatch goal with
  | |- keeps _ (print _) => apply keeps_print; intros ? ? ?; assumption
  | |- keeps _ (bind clear_all_match _) =>
      apply keeps_after_clear; keeps_structure flag_cleared_leaf
  | |- keeps _ (record_issue _ _) =>
      apply flag_implies_clean_record; reflexivity
  end.

Lemma pass_flag_implies_clean :
  forall pg sg, keeps flag_implies_clean (comparison_pass pg sg).
Proof.
  intros pg sg. unfold_pass. keeps_structure flag_implies_clean_leaf.
Qed.

(** Rules for [establishes]. *)
Lemma establishes_later :
  forall (A B : Type) (Q : run -> Prop) (m : M A) (k : A -> M B),
    (forall a, establishes Q (k a)) -> establishes Q (bind m k).
Proof.
  intros A B Q m k Hk st st' b H. apply bind_ok in H.
  destruct H as [a [st1 [_ H]]]. exact (Hk a st1 st' b H).
Qed.

Lemma establishes_now :
  forall (A B : Type) (Q : run -> Prop) (m : M A) (k : A -> M B),
    establishes Q m -> (forall a, keeps Q (k a)) -> establishes Q (bind m k).
Proof.
  intros A B Q m k Hm Hk st st' b H. apply bind_ok in H.
  destruct H as [a [st1 [H1 H2]]].
  exact (Hk a st1 st' (Ok b) (Hm st st1 a H1) H2).
Qed.

Lemma establishes_array_issue :
  forall i, is_array_issue i = true ->
    establishes has_array_issue (record_issue Values i).
Proof.
  intros i Hi st st' a H. injection H as <-. exists i. split; [| exact Hi].
  simpl. apply in_or_app. right. left. reflexivity.
Qed.

Lemma keeps_ok_after_clear :
  forall k : unit -> M unit,
    establishes has_array_issue (k tt) ->
    keeps_ok cleared_implies_issue (bind clear_all_match k).
Proof.
  intros k Hk st st' a _ H. apply bind_ok in H.
  destruct H as [[] [st1 [_ H]]]. intros _. exact (Hk st1 st' a H).
Qed.

(** The block after [all_match = False]: the entry is appended as soon as
    its text is built, and what follows only prints. *)
Ltac establishes_array :=
  repeat lazymatch goal with
  | |- establishes _ (bind (record_issue Values _) _) =>
      apply establishes_now;
        [ apply establishes_array_issue; reflexivity
        | intro; keeps_structure has_array_leaf ]
  | |- establishes _ (bind _ _) => apply establishes_later; intro
  end.

Ltac cleared_implies_issue_leaf :=
  idtac;
  lazymatch goal with
  | |- keeps_ok _ (bind clear_all_match _) =>
      apply keeps_ok_after_clear; establishes_array
  | |- keeps_ok _ (ret _) => apply keeps_is_keeps_ok, keeps_ret
  | |- keeps_ok _ (lift _) => apply keeps_is_keeps_ok, keeps_lift
  | |- keeps_ok _ (print _) =>
      apply keeps_is_keeps_ok, keeps_print; intros ? ? ?; assumption
  | |- keeps_ok _ (record_issue _ _) =>
      apply keeps_is_keeps_ok, cleared_implies_issue_record
  end.

Ltac keeps_ok_structure leaf :=
  repeat first
    [ leaf
    | lazymatch goal with
      | |- keeps_ok _ (bind _ _) => apply keeps_ok_bind; [| intro]
      | |- keeps_ok _ (when _ _) => apply keeps_ok_when
      | |- keeps_ok _ (for_each _ _ _) => apply keeps_ok_for_each; intros ? ?
      | |- keeps_ok _ (let (_, _) := ?e in _) => destruct e
      | |- keeps_ok _ (if ?b then _ else _) => destruct b
      end ].

Lemma pass_cleared_implies_issue :
  forall pg sg, keeps_ok cleared_implies_issue (comparison_pass pg sg).
Proof.
  intros pg sg. unfold_pass. unfold for_range.
  keeps_ok_structure cleared_implies_issue_leaf.
Qed.

(** After the verdict the report only prints. *)
Lemma no_array_issue_blind : output_blind no_array_issue.
Proof. intros st l H. exact H. Qed.

Lemma has_array_issue_blind : output_blind has_array_issue.
Proof. intros st l H. exact H. Qed.

Lemma detail_no_array_issue :
  forall pg sg, keeps no_array_issue (first_message_detail pg sg).
Proof.
  intros pg sg. unfold first_message_detail. keeps_structure blind_leaf.
Qed.

Lemma detail_has_array_issue :
  forall pg sg, keeps has_array_issue (first_message_detail pg sg).
Proof.
  intros pg sg. unfold first_message_detail. keeps_structure blind_leaf.
Qed.

Lemma categories_has_array_issue :
  forall iss,
    keeps has_array_issue
          (for_each 0 categories (fun _ c => report_category c iss)).
Proof.
  intros iss. unfold report_category. keeps_structure blind_leaf.
Qed.

Lemma not_printed_with_output :
  forall l st lines,
    not_printed l st -> ~ In l lines -> not_printed l (with_output st lines).
Proof.
  intros l st lines Hst Hl Hin. unfold with_output in Hin. simpl in Hin.
  apply in_app_or in Hin. destruct Hin as [Hin | Hin];
    [exact (Hst Hin) | exact (Hl Hin)].
Qed.

(** The report, from a state in which no verdict has been printed. *)
Lemma report_verdict_follows :
  forall pg sg st st' r,
    report pg sg st = (st', r) ->
    not_printed VerdictDiscrepancies st -> not_printed VerdictAllMatch st ->
    flag_implies_clean st -> cleared_implies_issue st ->
    (In VerdictDiscrepancies (out st') -> has_array_issue st')
    /\ (In VerdictAllMatch (out st') -> no_array_issue st').
Proof.
  intros pg sg st st' r H HnD HnA Hclean Hissue.
  unfold report in H. rewrite bind_print_eq in H.
  unfold report_verdict in H. rewrite bind_bind_eq, bind_get_run_eq in H.
  set (st1 := with_output st [Banner "SUMMARY"]) in *.
  assert (H1D : not_printed VerdictDiscrepancies st1).
  { apply not_printed_with_output; [exact HnD |].
    intros [Heq | []]. discriminate. }
  assert (H1A : not_printed VerdictAllMatch st1).
  { apply not_printed_with_output; [exact HnA |].
    intros [Heq | []]. discriminate. }
  change (all_match st1) with (all_match st) in H.
  destruct (all_match st) eqn:Eflag.
  - (* line 142 *)
    rewrite bind_print_eq in H.
    set (st2 := with_output st1 [VerdictAllMatch]) in *.
    assert (H2D : not_printed VerdictDiscrepancies st2).
    { apply not_printed_with_output; [exact H1D |].
      intros [Heq | []]. discriminate. }
    assert (H2C : no_array_issue st2) by (exact (Hclean Eflag)).
    split.
    + intro Hin. exfalso.
      exact (detail_not_printed VerdictDiscrepancies pg sg eq_refl
               st2 st' r H2D H Hin).
    + intros _. exact (detail_no_array_issue pg sg st2 st' r H2C H).
  - (* line 144 *)
    rewrite bind_bind_eq, bind_print_eq in H.
    set (st2 := with_output st1 [VerdictDiscrepancies]) in *.
    assert (H2A : not_printed VerdictAllMatch st2).
    { apply not_printed_with_output; [exact H1A |].
      intros [Heq | []]. discriminate. }
    assert (H2I : has_array_issue st2) by (exact (Hissue Eflag)).
    apply bind_cases in H.
    destruct H as [[[] [st3 [Hcat Hdet]]] | [e [Hcat ->]]].
    + pose proof (categories_not_printed VerdictAllMatch _ eq_refl
                    st2 st3 _ H2A Hcat) as H3A.
      pose proof (categories_has_array_issue _ st2 st3 _ H2I Hcat) as H3I.
      split.
      * intros _. exact (detail_has_array_issue pg sg st3 st' r H3I Hdet).
      * intro Hin. exfalso.
        exact (detail_not_printed VerdictAllMatch pg sg eq_refl
                 st3 st' r H3A Hdet Hin).
    + split.
      * intros _. exact (categories_has_array_issue _ st2 st' _ H2I Hcat).
      * intro Hin. exfalso.
        exact (categories_not_printed VerdictAllMatch _ eq_refl
                 st2 st' _ H2A Hcat Hin).
Qed.

Lemma pass_start_not_printed :
  forall l pg sg, is_verdict l = true -> not_printed l (pass_start pg sg).
Proof.
  intros l pg sg Hl Hin. simpl in Hin.
  destruct Hin as [Hin | [Hin | [Hin | []]]]; subst l; discriminate.
Qed.

(** X6.  However a run ends: if it printed "DISCREPANCIES FOUND", a
    mismatch of value arrays (full or sampled) is among the recorded
    entries; if it printed "ALL VALUES MATCH", no such entry is. *)
Theorem verdict_follows_arrays :
  forall pygrib_data swift_data st' r,
    main pygrib_data swift_data run_init = (st', r) ->
    (In VerdictDiscrepancies (out st') -> has_array_issue st')
    /\ (In VerdictAllMatch (out st') -> no_array_issue st').
Proof.
  intros pg sg st' r H.
  destruct (List.length pg =? List.length sg)%nat eqn:Hlen.
  - rewrite (main_phases pg sg Hlen) in H.
    pose proof (pass_start_not_printed VerdictDiscrepancies pg sg eq_refl)
      as H0D.
    pose proof (pass_start_not_printed VerdictAllMatch pg sg eq_refl) as H0A.
    assert (H0C : flag_implies_clean (pass_start pg sg)) by (intros _ i []).
    assert (H0I : cleared_implies_issue (pass_start pg sg))
      by (intro Hf; discriminate).
    apply bind_cases in H.
    destruct H as [[[] [st1 [Hpass Hrep]]] | [e [Hpass ->]]].
    + apply (report_verdict_follows pg sg st1 st' r Hrep).
      * exact (pass_not_printed VerdictDiscrepancies pg sg eq_refl _ st1 _
                 H0D Hpass).
      * exact (pass_not_printed VerdictAllMatch pg sg eq_refl _ st1 _
                 H0A Hpass).
      * exact (pass_flag_implies_clean pg sg _ st1 _ H0C Hpass).
      * exact (pass_cleared_implies_issue pg sg _ st1 tt H0I Hpass).
    + split; intro Hin; exfalso.
      * exact (pass_not_printed VerdictDiscrepancies pg sg eq_refl _ st' _
                 H0D Hpass Hin).
      * exact (pass_not_printed VerdictAllMatch pg sg eq_refl _ st' _
                 H0A Hpass Hin).
  - rewrite (main_stops pg sg Hlen) in H. injection H as <- _.
    split; intro Hin; simpl in Hin;
      destruct Hin as [Hin | [Hin | [Hin | []]]]; discriminate.
Qed.

Lemma verdict_follows_arrays_witness :
  In VerdictDiscrepancies
     (out (Samples.final [Samples.u_wind] [Samples.u_wind_values_off]))
  /\ has_array_issue (Samples.final [Samples.u_wind] [Samples.u_wind_values_off]).
Proof.
  assert (Hin : In VerdictDiscrepancies
                   (out (Samples.final [Samples.u_wind]
                                       [Samples.u_wind_values_off]))).
  { vm_compute. tauto. }
  split; [exact Hin |].
  refine (proj1 (verdict_follows_arrays [Samples.u_wind]
                   [Samples.u_wind_values_off] _
                   (snd (main [Samples.u_wind] [Samples.u_wind_values_off]
                              run_init)) _) Hin).
  unfold Samples.final.
  destruct (main [Samples.u_wind] [Samples.u_wind_values_off] run_init).
  reflexivity.
Defined.

(** *** A sequence compared with itself *)

Lemma compare_values_same :
  forall a tolerance,
    admits_zero tolerance -> fst (compare_values a a tolerance) = true.
Proof.
  intros a tolerance Ht. unfold compare_values.
  rewrite Nat.eqb_refl. simpl. rewrite scan_loop_self by exact Ht.
  reflexivity.
Qed.

Lemma admits_zero_value : admits_zero value_tolerance.
Proof. split; vm_compute; reflexivity. Qed.

Lemma admits_zero_mean : admits_zero mean_tolerance.
Proof. split; vm_compute; reflexivity. Qed.

Lemma clean_blind : output_blind clean.
Proof. intros st l H. exact H. Qed.

Ltac clean_leaf :=
  idtac;
  lazymatch goal with
  | |- keeps _ (print _) => apply keeps_print; apply clean_blind
  | |- keeps _ (when false _) => apply keeps_ret
  end.

Lemma compare_all_values_clean :
  forall n r, keeps clean (compare_all_values n r r).
Proof.
  intros n r. unfold compare_all_values.
  apply keeps_bind_lift. intros pg_all Hp.
  apply keeps_bind_lift. intros sg_all Hs.
  rewrite Hp in Hs. injection Hs as <-.
  apply keeps_bind_lift. intros pg_vals Hpv.
  apply keeps_bind_lift. intros sg_vals Hsv.
  rewrite Hpv in Hsv. injection Hsv as <-.
  pose proof (compare_values_same pg_vals default_tolerance admits_zero_default)
    as Hsame.
  destruct (compare_values pg_vals pg_vals default_tolerance) as [matched detail].
  cbn [fst] in Hsame. subst matched. cbn [negb].
  keeps_structure clean_leaf.
Qed.

Lemma compare_samples_clean :
  forall n r, keeps clean (compare_samples n r r).
Proof.
  intros n r. unfold compare_samples.
  apply keeps_bind_lift. intros pg_first Hp.
  apply keeps_bind_lift. intros sg_first Hs.
  rewrite Hp in Hs. injection Hs as <-.
  apply keeps_bind_lift. intros pg_f Hpv.
  apply keeps_bind_lift. intros sg_f Hsv.
  rewrite Hpv in Hsv. injection Hsv as <-.
  pose proof (compare_values_same pg_f default_tolerance admits_zero_default)
    as Hsame1.
  destruct (compare_values pg_f pg_f default_tolerance) as [match1 detail1].
  cbn [fst] in Hsame1. subst match1.
  apply keeps_bind_lift. intros pg_last Hp2.
  apply keeps_bind_lift. intros sg_last Hs2.
  rewrite Hp2 in Hs2. injection Hs2 as <-.
  apply keeps_bind_lift. intros pg_l Hpl.
  apply keeps_bind_lift. intros sg_l Hsl.
  rewrite Hpl in Hsl. injection Hsl as <-.
  pose proof (compare_values_same pg_l default_tolerance admits_zero_default)
    as Hsame2.
  destruct (compare_values pg_l pg_l default_tolerance) as [match2 detail2].
  cbn [fst] in Hsame2. subst match2. cbn [negb andb].
  keeps_structure clean_leaf.
Qed.

Lemma compare_statistic_clean :
  forall key tolerance describe r,
    admits_zero tolerance ->
    keeps clean (compare_statistic key tolerance describe r r).
Proof.
  intros key tolerance describe r Ht. unfold compare_statistic.
  apply keeps_bind_lift. intros pv Hp.
  apply keeps_bind_lift. intros sv Hs.
  rewrite Hp in Hs. injection Hs as <-.
  apply keeps_bind_lift. intros a Ha.
  apply keeps_bind_lift. intros b Hb.
  rewrite Ha in Hb. injection Hb as <-.
  rewrite (self_diff_within a tolerance Ht). apply keeps_ret.
Qed.

Lemma compare_message_clean :
  forall i r, comparable r -> keeps clean (compare_message i r r).
Proof.
  intros i r [HNi [HNj Hid]]. unfold compare_message.
  assert (Hgrid : grid_differs r r = false).
  { unfold grid_differs, py_ne. unfold self_equal in HNi, HNj.
    rewrite HNi, HNj. reflexivity. }
  assert (Hparam : parameter_id_differs r r = false).
  { unfold parameter_id_differs, py_ne. unfold self_equal in Hid.
    rewrite Hid. reflexivity. }
  rewrite Hgrid, Hparam. unfold compare_payload.
  repeat lazymatch goal with
  | |- keeps _ (bind _ _) => apply keeps_bind; [| intro]
  | |- keeps _ (if ?b then _ else _) => destruct b
  | |- keeps _ (ret _) => apply keeps_ret
  | |- keeps _ (when false _) => apply keeps_ret
  | |- keeps _ (compare_all_values _ _ _) => apply compare_all_values_clean
  | |- keeps _ (compare_samples _ _ _) => apply compare_samples_clean
  | |- keeps _ (compare_statistic _ value_tolerance _ _ _) =>
      apply compare_statistic_clean; apply admits_zero_value
  | |- keeps _ (compare_statistic _ mean_tolerance _ _ _) =>
      apply compare_statistic_clean; apply admits_zero_mean
  end.
Qed.

Lemma pass_clean :
  forall data,
    Forall comparable data -> keeps clean (comparison_pass data data).
Proof.
  intros data Hdata. unfold comparison_pass.
  apply keeps_for_range. intros i _.
  apply keeps_bind_lift. intros pg Hp.
  apply keeps_bind_lift. intros sg Hs.
  rewrite Hp in Hs. injection Hs as <-.
  apply compare_message_clean.
  unfold index in Hp. destruct (nth_error data i) as [x |] eqn:E;
    [| discriminate].
  injection Hp as <-. apply nth_error_In in E.
  rewrite Forall_forall in Hdata. exact (Hdata x E).
Qed.

Lemma detail_clean :
  forall pg sg, keeps clean (first_message_detail pg sg).
Proof.
  intros pg sg. unfold first_message_detail. keeps_structure clean_leaf.
Qed.

Lemma printed_print :
  forall l l', keeps (printed l) (print l').
Proof.
  intros l l' st st' r Hst H. injection H as <- _.
  unfold printed. simpl. apply in_or_app. left. exact Hst.
Qed.

Lemma detail_printed :
  forall l pg sg, keeps (printed l) (first_message_detail pg sg).
Proof.
  intros l pg sg. unfold first_message_detail.
  keeps_structure ltac:(idtac; lazymatch goal with
                        | |- keeps _ (print _) => apply printed_print
                        end).
Qed.

(** A sequence compared with itself: what the run leaves behind. *)
Lemma same_data_run :
  forall data st' r,
    Forall comparable data ->
    main data data run_init = (st', r) ->
    found st' = no_issues
    /\ all_match st' = true
    /\ ~ In VerdictDiscrepancies (out st')
    /\ (r = Ok tt -> In VerdictAllMatch (out st')).
Proof.
  intros data st' r Hdata H.
  rewrite (main_phases data data (Nat.eqb_refl _)) in H.
  assert (H0 : clean (pass_start data data)) by (split; reflexivity).
  pose proof (pass_start_not_printed VerdictDiscrepancies data data eq_refl)
    as H0D.
  apply bind_cases in H.
  destruct H as [[[] [st1 [Hpass Hrep]]] | [e [Hpass ->]]].
  - pose proof (pass_clean data Hdata _ st1 _ H0 Hpass) as [Hfound Hflag].
    pose proof (pass_not_printed VerdictDiscrepancies data data eq_refl
                  _ st1 _ H0D Hpass) as H1D.
    unfold report in Hrep. rewrite bind_print_eq in Hrep.
    unfold report_verdict in Hrep.
    rewrite bind_bind_eq, bind_get_run_eq in Hrep.
    change (all_match (with_output st1 [Banner "SUMMARY"]))
      with (all_match st1) in Hrep.
    rewrite Hflag in Hrep. rewrite bind_print_eq in Hrep.
    set (st2 := with_output (with_output st1 [Banner "SUMMARY"])
                            [VerdictAllMatch]) in *.
    assert (H2 : clean st2) by (split; assumption).
    assert (H2D : not_printed VerdictDiscrepancies st2).
    { apply not_printed_with_output;
        [apply not_printed_with_output; [exact H1D |] |];
        intros [Heq | []]; discriminate. }
    assert (H2A : printed VerdictAllMatch st2).
    { unfold printed. simpl. apply in_or_app. right. left. reflexivity. }
    destruct (detail_clean data data st2 st' r H2 Hrep) as [Hf Ha].
    repeat split; try assumption.
    + exact (detail_not_printed VerdictDiscrepancies data data eq_refl
               st2 st' r H2D Hrep).
    + intros _. exact (detail_printed _ data data st2 st' r H2A Hrep).
  - destruct (pass_clean data Hdata _ st' _ H0 Hpass) as [Hf Ha].
    repeat split; try assumption.
    + exact (pass_not_printed VerdictDiscrepancies data data eq_refl
               _ st' _ H0D Hpass).
    + discriminate.
Qed.

(** X7.  A sequence of records compared with itself, none of whose grid
    shape or parameter indicator is a NaN: however the run ends, nothing is
    recorded, [all_match] still holds and "DISCREPANCIES FOUND" is not
    printed; when the run returns, it has printed "ALL VALUES MATCH". *)
Theorem main_same_data :
  forall data st' r,
    Forall comparable data ->
    main data data run_init = (st', r) ->
    found st' = no_issues
    /\ all_match st' = true
    /\ ~ In VerdictDiscrepancies (out st')
    /\ (r = Ok tt -> In VerdictAllMatch (out st')).
Proof. exact same_data_run. Qed.

Lemma main_same_data_witness :
  Forall comparable [Samples.u_wind; Samples.u_wind_other_id]
  /\ found (Samples.final [Samples.u_wind; Samples.u_wind_other_id]
                          [Samples.u_wind; Samples.u_wind_other_id])
     = no_issues
  /\ In VerdictAllMatch
        (out (Samples.final [Samples.u_wind; Samples.u_wind_other_id]
                            [Samples.u_wind; Samples.u_wind_other_id])).
Proof.
  assert (Hc : Forall comparable [Samples.u_wind; Samples.u_wind_other_id]).
  { repeat constructor. }
  split; [exact Hc |].
  destruct (main_same_data [Samples.u_wind; Samples.u_wind_other_id]
              (Samples.final [Samples.u_wind; Samples.u_wind_other_id]
                             [Samples.u_wind; Samples.u_wind_other_id])
              (Ok tt) Hc)
    as [Hf [_ [_ Hv]]].
  - vm_compute. reflexivity.
  - split; [exact Hf | exact (Hv eq_refl)].
Defined.

(** *** Missing statistics, short arrays, empty input *)





Lemma compare_statistic_ok :
  forall key tolerance describe pg sg st st',
    compare_statistic key tolerance describe pg sg st = (st', Ok tt) ->
    contains key pg = true /\ contains key sg = true.
Proof.
  intros key tolerance describe pg sg st st' H.
  unfold compare_statistic in H.
  apply bind_ok in H. destruct H as [pv [st1 [H1 H]]].
  apply bind_ok in H. destruct H as [sv [st2 [H2 _]]].
  unfold lift, getitem, contains in *.
  destruct (lookup key pg); [| discriminate].
  destruct (lookup key sg); [| discriminate].
  split; reflexivity.
Qed.

Lemma compare_statistic_missing :
  forall key tolerance describe pg sg st,
    contains key pg = false \/ contains key sg = false ->
    compare_statistic key tolerance describe pg sg st = (st, Raise (KeyError key)).
Proof.
  intros key tolerance describe pg sg st H.
  unfold compare_statistic, bind, lift, getitem, contains in *.
  destruct (lookup key pg); destruct (lookup key sg);
    try reflexivity; destruct H; discriminate.
Qed.

(** X8.  The three statistics are required.  When [min], [max] or [mean]
    is missing from either record, the comparison of the message never
    returns; when the value payload check went through and [min] is the
    missing one, what is raised is [KeyError('min')], before any grid or
    parameter-ID check. *)
Theorem missing_statistic_raises :
  forall i pg sg,
    (forall key st st' r,
        In key statistic_keys ->
        contains key pg = false \/ contains key sg = false ->
        compare_message i pg sg st = (st', r) ->
        exists e, r = Raise e)
    /\ (forall st st1,
           contains "min" pg = false \/ contains "min" sg = false ->
           compare_payload (S i) pg sg st = (st1, Ok tt) ->
           compare_message i pg sg st = (st1, Raise (KeyError "min"))).
Proof.
  intros i pg sg. split.
  - intros key st st' r Hkey Hmiss H.
    destruct r as [[] | e]; [exfalso | exists e; reflexivity].
    unfold compare_message in H.
    apply bind_ok in H. destruct H as [_ [st1 [_ H]]].
    apply bind_ok in H. destruct H as [[] [st2 [Hmin H]]].
    apply bind_ok in H. destruct H as [[] [st3 [Hmax H]]].
    apply bind_ok in H. destruct H as [[] [st4 [Hmean _]]].
    apply compare_statistic_ok in Hmin, Hmax, Hmean.
    destruct Hmin as [Hmin1 Hmin2]. destruct Hmax as [Hmax1 Hmax2].
    destruct Hmean as [Hmean1 Hmean2].
    destruct Hkey as [Hk | [Hk | [Hk | []]]]; subst key;
      destruct Hmiss as [Hm | Hm]; congruence.
  - intros st st1 Hmiss Hpay. unfold compare_message.
    unfold bind at 1. rewrite Hpay.
    unfold bind at 1. rewrite compare_statistic_missing by exact Hmiss.
    reflexivity.
Qed.

Lemma missing_statistic_raises_witness :
  (contains "min" (Samples.without_field "min" Samples.u_wind) = false
   \/ contains "min" Samples.u_wind = false)
  /\ exists st1,
       compare_message 0 (Samples.without_field "min" Samples.u_wind)
                       Samples.u_wind run_init
       = (st1, Raise (KeyError "min")).
Proof.
  split; [left; reflexivity |].
  eexists.
  apply (proj2 (missing_statistic_raises 0
                  (Samples.without_field "min" Samples.u_wind) Samples.u_wind)).
  - left. reflexivity.
  - vm_compute. reflexivity.
Defined.




(** X10.  With two empty sequences the counts agree, no message is
    compared, the verdict is "ALL VALUES MATCH", and the detail report of
    the first message then raises [IndexError]. *)
Theorem main_empty_sequences :
  main [] [] run_init
  = ({| out := [ Banner "PYGRIB vs SWIFTGRIB DEEP COMPARISON";
                 MessageCounts 0 0;
                 Comparing 0;
                 Banner "SUMMARY";
                 VerdictAllMatch;
                 Banner "FIRST MESSAGE DETAILED COMPARISON" ];
        found := no_issues;
        all_match := true |},
     Raise IndexError).
Proof. vm_compute. reflexivity. Qed.

Lemma for_each_prints :
  forall (A : Type) (f : A -> line) (xs : list A) i st,
    for_each i xs (fun _ x => print (f x)) st
    = (with_output st (map f xs), Ok tt).
Proof.
  intros A f xs. induction xs as [| x xs IH]; intros i st.
  - unfold for_each, ret, with_output. cbn [map]. rewrite app_nil_r.
    destruct st; reflexivity.
  - cbn [for_each map]. rewrite bind_print_eq, IH. unfold with_output.
    cbn [out found all_match]. rewrite <- app_assoc. reflexivity.
Qed.

(** X11.  The report of a category prints nothing when the category is
    empty; otherwise its header with the number of entries, the first ten
    entries in the order recorded, and, when there are more than ten, the
    number of entries left out: twelve lines at most. *)
Theorem report_category_lines :
  forall c iss st,
    report_category c iss st = (with_output st (category_lines c iss), Ok tt)
    /\ (List.length (category_lines c iss) <= 12)%nat.
Proof.
  intros c iss st. unfold report_category, category_lines.
  destruct (items c iss) as [| x xs] eqn:E.
  - split; [| simpl; lia].
    unfold ret, with_output. rewrite app_nil_r. destruct st; reflexivity.
  - split.
    + rewrite bind_print_eq. unfold bind at 1. rewrite for_each_prints.
      unfold when, with_output. cbn [out found all_match].
      destruct (10 <? List.length (x :: xs))%nat.
      * unfold print. cbn [out found all_match].
        rewrite <- !app_assoc. reflexivity.
      * unfold ret. rewrite app_nil_r, <- !app_assoc. reflexivity.
    + cbn [List.length]. rewrite length_app, length_map, length_firstn.
      pose proof (Nat.le_min_l 10 (List.length (x :: xs))) as Hmin.
      destruct (10 <? S (List.length xs))%nat; cbn [List.length]; lia.
Qed.

End MainFacts.

Section ExtractionFacts.

Import Payload Notions.

Lemma text_eqb_eq : forall s t, text_eqb s t = true <-> s = t.
Proof.
  induction s as [| c s IH]; intros [| d t]; simpl; split; intro H;
    try reflexivity; try discriminate.
  - apply andb_prop in H. destruct H as [Hc Hs].
    apply N.eqb_eq in Hc. apply IH in Hs. subst. reflexivity.
  - injection H as -> ->. rewrite N.eqb_refl. apply IH. reflexivity.
Qed.

Lemma lstrip_decompose :
  forall s, exists ws, all_spaces ws /\ s = ws ++ lstrip s.
Proof.
  induction s as [| c s IH].
  - exists []. split; reflexivity.
  - simpl. destruct (is_space c) eqn:E.
    + destruct IH as [ws [Hws Hs]]. exists (c :: ws). split.
      * unfold all_spaces. simpl. rewrite E. exact Hws.
      * simpl. rewrite <- Hs. reflexivity.
    + exists []. split; reflexivity.
Qed.

Lemma lstrip_spaces :
  forall ws s, all_spaces ws -> lstrip (ws ++ s) = lstrip s.
Proof.
  induction ws as [| c ws IH]; intros s H; [reflexivity |].
  unfold all_spaces in H. simpl in H. apply andb_prop in H.
  destruct H as [Hc Hws]. simpl. rewrite Hc. apply IH. exact Hws.
Qed.

Lemma all_spaces_rev : forall ws, all_spaces ws -> all_spaces (rev ws).
Proof.
  intros ws H. unfold all_spaces in *. rewrite forallb_forall in *.
  intros c Hc. apply H. apply in_rev. exact Hc.
Qed.

(** X12.  A line is a marker line exactly when it is an opening bracket
    with nothing but whitespace (of the kind [str.strip] removes) before
    and after it. *)
Theorem marker_line_shape :
  forall line,
    is_marker line = true <->
    exists before after,
      all_spaces before /\ all_spaces after
      /\ line = before ++ [open_bracket] ++ after.
Proof.
  intro line. unfold is_marker. rewrite text_eqb_eq. unfold strip, rstrip.
  split.
  - intro H.
    destruct (lstrip_decompose line) as [before [Hb Hline]].
    destruct (lstrip_decompose (rev (lstrip line))) as [ws [Hws Hrev]].
    assert (Hcore : lstrip (rev (lstrip line)) = [open_bracket]).
    { rewrite <- (rev_involutive (lstrip (rev (lstrip line)))), H.
      reflexivity. }
    rewrite Hcore in Hrev.
    exists before, (rev ws). repeat split.
    + exact Hb.
    + apply all_spaces_rev. exact Hws.
    + rewrite Hline at 1. f_equal.
      rewrite <- (rev_involutive (lstrip line)), Hrev, rev_app_distr.
      reflexivity.
  - intros [before [after [Hb [Ha ->]]]].
    rewrite lstrip_spaces by exact Hb.
    change (lstrip ([open_bracket] ++ after)) with (open_bracket :: after).
    change (rev (open_bracket :: after)) with (rev after ++ [open_bracket]).
    rewrite lstrip_spaces by (apply all_spaces_rev; exact Ha).
    reflexivity.
Qed.

Lemma split_app :
  forall pre content,
    split (pre ++ newline :: content)
    = split pre ++ split content.
Proof.
  induction pre as [| c pre IH]; intro content.
  - simpl. reflexivity.
  - simpl. destruct (N.eqb_spec c newline) as [Hc | Hc].
    + rewrite IH. reflexivity.
    + rewrite IH. pose proof (split_not_nil pre) as Hne.
      destruct (split pre) as [| l ls]; [contradiction | reflexivity].
Qed.

Lemma from_marker_app :
  forall pre rest, no_marker pre -> from_marker (pre ++ rest) = from_marker rest.
Proof.
  intros pre rest H. induction H as [| l pre Hl _ IH]; simpl; [reflexivity |].
  rewrite Hl. exact IH.
Qed.

Lemma json_content_from_marker :
  forall content, json_content content = join (from_marker (split content)).
Proof.
  intro content. unfold json_content. rewrite collect_scanning. reflexivity.
Qed.

(** X13.  Whatever precedes the payload is dropped: when no line of the
    chatter is a marker line, the text extracted from chatter, a line
    break and a text is the one extracted from that text alone. *)
Theorem chatter_is_dropped :
  forall chatter content,
    no_marker (split chatter) ->
    json_content (chatter ++ newline :: content) = json_content content.
Proof.
  intros chatter content H.
  rewrite !json_content_from_marker, split_app, from_marker_app by exact H.
  reflexivity.
Qed.

Lemma chatter_is_dropped_witness :
  no_marker (split (Samples.text_of "Compiling [1/2] main.swift"))
  /\ json_content (Samples.text_of "Compiling [1/2] main.swift"
                   ++ newline :: Samples.text_of "[]")
     = json_content (Samples.text_of "[]").
Proof.
  assert (H : no_marker (split (Samples.text_of "Compiling [1/2] main.swift"))).
  { repeat constructor. }
  split; [exact H |].
  apply (chatter_is_dropped _ _ H).
Defined.

(** X14.  A text whose first line is a marker line is handed to the parser
    unchanged. *)
Theorem bare_payload_unchanged :
  forall content first rest,
    split content = first :: rest ->
    is_marker first = true ->
    json_content content = content.
Proof.
  intros content first rest Hsplit Hfirst.
  rewrite json_content_from_marker, Hsplit. cbn [from_marker].
  rewrite Hfirst, <- Hsplit. apply join_split.
Qed.

Lemma bare_payload_unchanged_witness :
  json_content (Samples.text_of " [" ++ newline :: Samples.text_of "{}]")
  = Samples.text_of " [" ++ newline :: Samples.text_of "{}]".
Proof.
  apply (bare_payload_unchanged _ (Samples.text_of " [")
           [Samples.text_of "{}]"]); reflexivity.
Defined.

End ExtractionFacts.

Section RecordFacts.

Import Extractor Notions.

Variables np_min np_max np_mean : list float -> float.

Lemma py_index_in_range :
  forall (A : Type) (l : list A) idx,
    in_range (List.length l) idx -> exists a, py_index l idx = Ok a.
Proof.
  intros A l idx [Hlo Hhi]. unfold py_index.
  set (pos := if (idx <? 0)%Z then (idx + Z.of_nat (List.length l))%Z else idx).
  assert (Hpos : (0 <= pos < Z.of_nat (List.length l))%Z).
  { subst pos. destruct (Z.ltb_spec idx 0); lia. }
  destruct Hpos as [H0 Hn].
  apply Z.leb_le in H0. apply Z.ltb_lt in Hn. rewrite H0, Hn. simpl.
  destruct (nth_error l (Z.to_nat pos)) as [a |] eqn:E.
  - exists a. reflexivity.
  - apply nth_error_None in E. apply Z.ltb_lt in Hn. lia.
Qed.


Lemma spot_values_in_range :
  forall values indices acc,
    Forall (in_range (List.length values)) indices ->
    exists spots, spot_values values indices acc = Ok spots.
Proof.
  intros values indices. induction indices as [| idx rest IH]; intros acc H.
  - exists acc. reflexivity.
  - inversion H as [| ? ? Hidx Hrest]; subst. simpl.
    destruct (py_index_in_range _ values idx Hidx) as [v Hv]. rewrite Hv.
    simpl. apply IH. exact Hrest.
Qed.


Lemma spot_indices_in_range :
  forall n, (3 <= n)%nat -> Forall (in_range n) (spot_indices (Z.of_nat n)).
Proof.
  intros n Hn. unfold spot_indices, in_range.
  repeat constructor; Z.to_euclidean_division_equations; lia.
Qed.

Lemma spot_values_short :
  forall values acc spots,
    spot_values values (spot_indices (Z.of_nat (List.length values))) acc
    = Ok spots ->
    (3 <= List.length values)%nat.
Proof.
  intros values acc spots H.
  destruct values as [| x [| y [| z rest]]]; try discriminate.
  simpl. lia.
Qed.

Lemma py_index_nonempty :
  forall (A : Type) (l : list A) idx a, py_index l idx = Ok a -> l <> [].
Proof.
  intros A l idx a H ->. unfold py_index in H. simpl in H.
  destruct (idx <? 0)%Z; destruct (_ && _)%bool; try discriminate;
    destruct (Z.to_nat _); discriminate.
Qed.

Lemma end_in_range :
  forall (A : Type) (l : list A),
    l <> [] -> in_range (List.length l) 0 /\ in_range (List.length l) (-1).
Proof.
  intros A [| a l] H; [contradiction |]. unfold in_range. simpl List.length.
  lia.
Qed.

(** A message is turned into a record exactly when it is describable. *)
Lemma message_info_describable :
  forall i grb,
    (exists info, message_info np_min np_max np_mean i grb = Ok info)
    <-> describable grb.
Proof.
  intros i grb. unfold describable, message_info. split.
  - intros [info H].
    destruct (grb_values grb) as [| x xs]; [discriminate |].
    destruct (spot_values _ _ _) as [spots |] eqn:Es; [| discriminate].
    destruct (py_index (lats grb) 0) as [first_lat |] eqn:E1; [| discriminate].
    destruct (py_index (lons grb) 0) as [first_lon |] eqn:E2; [| discriminate].
    repeat split.
    + exact (spot_values_short _ _ _ Es).
    + exact (py_index_nonempty _ _ _ _ E1).
    + exact (py_index_nonempty _ _ _ _ E2).
  - intros [Hn [Hlat Hlon]].
    destruct (grb_values grb) as [| x xs]; [simpl in Hn; lia |].
    destruct (spot_values_in_range (x :: xs)
                (spot_indices (Z.of_nat (List.length (x :: xs)))) []
                (spot_indices_in_range _ Hn)) as [spots Hs].
    destruct (end_in_range _ _ Hlat) as [Hlat0 Hlat1].
    destruct (end_in_range _ _ Hlon) as [Hlon0 Hlon1].
    destruct (py_index_in_range _ _ _ Hlat0) as [a1 E1].
    destruct (py_index_in_range _ _ _ Hlon0) as [a2 E2].
    destruct (py_index_in_range _ _ _ Hlat1) as [a3 E3].
    destruct (py_index_in_range _ _ _ Hlon1) as [a4 E4].
    cbv zeta. rewrite Hs, E1, E2, E3, E4. cbn [rbind].
    eexists. reflexivity.
Qed.


Lemma extract_from_length :
  forall grbs start results,
    extract_from np_min np_max np_mean start grbs = Ok results ->
    List.length results = List.length grbs.
Proof.
  induction grbs as [| grb grbs IH]; intros start results H; simpl in H.
  - injection H as <-. reflexivity.
  - destruct (message_info _ _ _ start grb) as [info |]; [| discriminate].
    simpl in H.
    destruct (extract_from _ _ _ (S start) grbs) as [rest |] eqn:E;
      [| discriminate].
    simpl in H. injection H as <-. simpl. f_equal. exact (IH _ _ E).
Qed.

Lemma extract_from_describable :
  forall grbs start,
    (exists results,
       extract_from np_min np_max np_mean start grbs = Ok results)
    <-> Forall describable grbs.
Proof.
  induction grbs as [| grb grbs IH]; intro start; simpl.
  - split; [constructor | exists []; reflexivity].
  - split.
    + intros [results H].
      destruct (message_info _ _ _ start grb) as [info |] eqn:E;
        [| discriminate].
      simpl in H.
      destruct (extract_from _ _ _ (S start) grbs) as [rest |] eqn:Er;
        [| discriminate].
      constructor.
      * apply (message_info_describable start). exists info. exact E.
      * apply (IH (S start)). exists rest. exact Er.
    + intro H. inversion H as [| ? ? Hgrb Hrest]; subst.
      apply (message_info_describable start) in Hgrb.
      destruct Hgrb as [info ->].
      apply (IH (S start)) in Hrest. destruct Hrest as [rest ->].
      simpl. eexists. reflexivity.
Qed.

(** X15.  The extractor prints a payload exactly when every message of the
    file has at least three values and a non-empty grid of coordinates;
    the payload then has one record per message. *)
Theorem main_describes_all :
  forall grbs,
    ((exists results, main np_min np_max np_mean grbs = Ok results)
     <-> Forall describable grbs)
    /\ (forall results,
          main np_min np_max np_mean grbs = Ok results ->
          List.length results = List.length grbs).
Proof.
  intro grbs. split.
  - apply extract_from_describable.
  - intros results H. exact (extract_from_length _ _ _ H).
Qed.



(** What a record holds of its message. *)
Lemma message_info_fields :
  forall i grb info,
    message_info np_min np_max np_mean i grb = Ok info ->
    get info "message" VNone = VNum (PInt (Z.of_nat (S i)))
    /\ get info "numValues" VNone
       = VNum (PInt (Z.of_nat (List.length (grb_values grb))))
    /\ get info "first10" VNone = floats (head10 (grb_values grb))
    /\ get info "last10" VNone = floats (tail10 (grb_values grb))
    /\ (has_all_values info = true ->
        get info "allValues" VNone = floats (grb_values grb)).
Proof.
  intros i grb info H. unfold message_info in H.
  destruct (grb_values grb) as [| x xs]; [discriminate |].
  destruct (spot_values _ _ _) as [spots |]; [| discriminate].
  destruct (py_index (lats grb) 0) as [first_lat |]; [| discriminate].
  destruct (py_index (lons grb) 0) as [first_lon |]; [| discriminate].
  destruct (py_index (lats grb) (-1)) as [last_lat |]; [| discriminate].
  destruct (py_index (lons grb) (-1)) as [last_lon |]; [| discriminate].
  cbn [rbind] in H. injection H as <-.
  destruct (wants_all_values (S i)); repeat split; try reflexivity.
  intro Hall. discriminate Hall.
Qed.

Lemma head10_prefix :
  forall (A : Type) (l : list A),
    List.length (head10 l) = Nat.min 10 (List.length l)
    /\ exists rest, l = head10 l ++ rest.
Proof.
  intros A l. unfold head10. split.
  - apply length_firstn.
  - exists (skipn 10 l). symmetry. apply firstn_skipn.
Qed.

Lemma tail10_suffix :
  forall (A : Type) (l : list A),
    List.length (tail10 l) = Nat.min 10 (List.length l)
    /\ exists init, l = init ++ tail10 l.
Proof.
  intros A l. unfold tail10. split.
  - rewrite length_skipn. lia.
  - exists (firstn (List.length l - 10) l). symmetry. apply firstn_skipn.
Qed.

(** X17.  The record at position [j] of the payload describes the message
    at position [j] of the file: it is numbered [j + 1], gives the number
    of values, and its two samples are the first and the last
    [min(10, n)] of the [n] values, in order; the full array, when the
    record has one, is all of them. *)
Theorem record_describes_message :
  forall grbs results j info,
    main np_min np_max np_mean grbs = Ok results ->
    nth_error results j = Some info ->
    exists grb first last,
      nth_error grbs j = Some grb
      /\ get info "message" VNone = VNum (PInt (Z.of_nat j + 1))
      /\ get info "numValues" VNone
         = VNum (PInt (Z.of_nat (List.length (grb_values grb))))
      /\ get info "first10" VNone = floats first
      /\ get info "last10" VNone = floats last
      /\ List.length first = Nat.min 10 (List.length (grb_values grb))
      /\ List.length last = Nat.min 10 (List.length (grb_values grb))
      /\ (exists rest, grb_values grb = first ++ rest)
      /\ (exists init, grb_values grb = init ++ last)
      /\ (has_all_values info = true ->
          get info "allValues" VNone = floats (grb_values grb)).
Proof.
  intros grbs results j info Hmain Hj. unfold main in Hmain.
  destruct (extract_from_nth np_min np_max np_mean grbs 0 results Hmain
              j info Hj) as [grb [Hgrb Hinfo]].
  destruct (message_info_fields j grb info Hinfo)
    as [Hmsg [Hnum [Hfirst [Hlast Hall]]]].
  destruct (head10_prefix _ (grb_values grb)) as [Hlen1 Hpre].
  destruct (tail10_suffix _ (grb_values grb)) as [Hlen2 Hsuf].
  exists grb, (head10 (grb_values grb)), (tail10 (grb_values grb)).
  repeat split; try assumption.
  rewrite Hmsg. do 2 f_equal. lia.
Qed.

End RecordFacts.

Section CompositionFacts.

Import Comparator Notions.

Variables np_min np_max np_mean : list float -> float.

(** *** Commands that return *)

Lemma returns_ret : forall (A : Type) (a : A), returns (ret a).
Proof. intros A a st. exists st, a. reflexivity. Qed.

Lemma returns_print : forall l, returns (print l).
Proof. intros l st. eexists. exists tt. reflexivity. Qed.

Lemma returns_record_issue : forall c i, returns (record_issue c i).
Proof. intros c i st. eexists. exists tt. reflexivity. Qed.

Lemma returns_bind :
  forall (A B : Type) (m : M A) (k : A -> M B),
    returns m -> (forall a, returns (k a)) -> returns (bind m k).
Proof.
  intros A B m k Hm Hk st.
  destruct (Hm st) as [st1 [a H1]]. destruct (Hk a st1) as [st2 [b H2]].
  exists st2, b. unfold bind. rewrite H1. exact H2.
Qed.

Lemma returns_bind_lift :
  forall (A B : Type) (r : result A) (a : A) (k : A -> M B),
    r = Ok a -> returns (k a) -> returns (bind (lift r) k).
Proof. intros A B r a k -> Hk st. exact (Hk st). Qed.

Lemma returns_bind_get_run :
  forall (B : Type) (k : run -> M B),
    (forall s, returns (k s)) -> returns (bind get_run k).
Proof. intros B k Hk st. exact (Hk st st). Qed.

Lemma returns_when :
  forall (b : bool) (m : M unit),
    (b = true -> returns m) -> returns (when b m).
Proof.
  intros [|] m Hm; simpl; [exact (Hm eq_refl) | apply returns_ret].
Qed.

Lemma returns_for_each :
  forall (A : Type) (xs : list A) (body : nat -> A -> M unit) i,
    (forall j x, In x xs -> returns (body j x)) ->
    returns (for_each i xs body).
Proof.
  intros A xs body. induction xs as [| x xs IH]; intros i H; simpl.
  - apply returns_ret.
  - apply returns_bind.
    + apply H. left. reflexivity.
    + intros _. apply IH. intros j y Hy. apply H. right. exact Hy.
Qed.

Lemma returns_for_range :
  forall n (body : nat -> M unit),
    (forall j, (j < n)%nat -> returns (body j)) ->
    returns (for_range n body).
Proof.
  intros n body H. unfold for_range. apply returns_for_each.
  intros _ j Hj. apply H. apply in_seq in Hj. lia.
Qed.

Lemma index_in_range :
  forall (A : Type) (l : list A) j,
    (j < List.length l)%nat -> exists a, index l j = Ok a /\ In a l.
Proof.
  intros A l j Hj. unfold index.
  destruct (nth_error l j) as [a |] eqn:E.
  - exists a. split; [reflexivity | exact (nth_error_In _ _ E)].
  - apply nth_error_None in E. lia.
Qed.

(** *** The comparison of a readable record with itself *)

Lemma compare_all_values_returns :
  forall n info,
    readable info -> contains "allValues" info = true ->
    returns (compare_all_values n info info).
Proof.
  intros n info [[s Hs] [_ [_ [_ Hall]]]] Hc. destruct (Hall Hc) as [l Hl].
  unfold compare_all_values.
  eapply returns_bind_lift; [exact Hl |].
  eapply returns_bind_lift; [exact Hl |].
  eapply returns_bind_lift; [reflexivity |].
  eapply returns_bind_lift; [reflexivity |].
  pose proof (compare_values_same l default_tolerance admits_zero_default)
    as Hsame.
  destruct (compare_values l l default_tolerance) as [matched detail].
  cbn [fst] in Hsame. subst matched. cbn [negb].
  eapply returns_bind_lift; [exact Hs |].
  eapply returns_bind_lift; [reflexivity |].
  apply returns_print.
Qed.

Lemma compare_samples_returns :
  forall n info, readable info -> returns (compare_samples n info info).
Proof.
  intros n info [[s Hs] [_ [[l1 H1] [[l2 H2] _]]]].
  unfold compare_samples.
  eapply returns_bind_lift; [exact H1 |].
  eapply returns_bind_lift; [exact H1 |].
  eapply returns_bind_lift; [reflexivity |].
  eapply returns_bind_lift; [reflexivity |].
  pose proof (compare_values_same l1 default_tolerance admits_zero_default)
    as Hsame1.
  destruct (compare_values l1 l1 default_tolerance) as [match1 detail1].
  cbn [fst] in Hsame1. subst match1.
  eapply returns_bind_lift; [exact H2 |].
  eapply returns_bind_lift; [exact H2 |].
  eapply returns_bind_lift; [reflexivity |].
  eapply returns_bind_lift; [reflexivity |].
  pose proof (compare_values_same l2 default_tolerance admits_zero_default)
    as Hsame2.
  destruct (compare_values l2 l2 default_tolerance) as [match2 detail2].
  cbn [fst] in Hsame2. subst match2. cbn [andb negb].
  eapply returns_bind_lift; [exact Hs |].
  eapply returns_bind_lift; [reflexivity |].
  apply returns_print.
Qed.

Lemma compare_statistic_returns :
  forall key tolerance describe info,
    readable info -> In key statistic_keys ->
    returns (compare_statistic key tolerance describe info info).
Proof.
  intros key tolerance describe info [_ [Hstat _]] Hkey.
  destruct (Hstat key Hkey) as [a Ha]. unfold compare_statistic.
  eapply returns_bind_lift; [exact Ha |].
  eapply returns_bind_lift; [exact Ha |].
  eapply returns_bind_lift; [reflexivity |].
  eapply returns_bind_lift; [reflexivity |].
  apply returns_when. intros _. apply returns_record_issue.
Qed.

Lemma compare_message_returns :
  forall i info, readable info -> returns (compare_message i info info).
Proof.
  intros i info Hr. unfold compare_message. cbv zeta.
  apply returns_bind; [| intros _].
  { unfold compare_payload.
    destruct (contains "allValues" info) eqn:Eall; cbn [andb].
    - apply compare_all_values_returns; assumption.
    - destruct (contains "first10" info); cbn [andb].
      + apply compare_samples_returns. exact Hr.
      + apply returns_ret. }
  apply returns_bind; [| intros _].
  { apply compare_statistic_returns; [exact Hr | simpl; tauto]. }
  apply returns_bind; [| intros _].
  { apply compare_statistic_returns; [exact Hr | simpl; tauto]. }
  apply returns_bind; [| intros _].
  { apply compare_statistic_returns; [exact Hr | simpl; tauto]. }
  apply returns_bind; [| intros _].
  { apply returns_when. intros _. apply returns_record_issue. }
  apply returns_when. intros _. apply returns_record_issue.
Qed.

Lemma pass_returns :
  forall data, Forall readable data -> returns (comparison_pass data data).
Proof.
  intros data Hdata. unfold comparison_pass. apply returns_for_range.
  intros j Hj. destruct (index_in_range _ data j Hj) as [info [Hinfo Hin]].
  eapply returns_bind_lift; [exact Hinfo |].
  eapply returns_bind_lift; [exact Hinfo |].
  apply compare_message_returns.
  rewrite Forall_forall in Hdata. exact (Hdata info Hin).
Qed.

Lemma report_category_returns :
  forall c iss, returns (report_category c iss).
Proof.
  intros c iss. unfold report_category.
  destruct (items c iss) as [| x xs]; [apply returns_ret |].
  apply returns_bind; [apply returns_print | intros _].
  apply returns_bind; [| intros _].
  - apply returns_for_each. intros j item _. apply returns_print.
  - apply returns_when. intros _. apply returns_print.
Qed.

Lemma report_verdict_returns : returns report_verdict.
Proof.
  unfold report_verdict. apply returns_bind_get_run. intro s.
  destruct (all_match s); [apply returns_print |].
  apply returns_bind; [apply returns_print | intros _].
  apply returns_for_each. intros j c _. apply report_category_returns.
Qed.

Lemma detail_returns :
  forall info rest,
    readable info ->
    returns (first_message_detail (info :: rest) (info :: rest)).
Proof.
  intros info rest [_ [_ [_ [_ Hall]]]]. unfold first_message_detail.
  apply returns_bind; [apply returns_print | intros _].
  eapply returns_bind_lift; [reflexivity |].
  eapply returns_bind_lift; [reflexivity |].
  apply returns_bind; [apply returns_print | intros _].
  apply returns_bind; [| intros _].
  { apply returns_for_each. intros j f _. apply returns_print. }
  apply returns_bind; [apply returns_print | intros _].
  apply returns_when. intro Hc.
  apply andb_prop in Hc. destruct Hc as [Hc _].
  destruct (Hall Hc) as [l Hl].
  apply returns_bind; [apply returns_print | intros _].
  eapply returns_bind_lift; [exact Hl |].
  eapply returns_bind_lift; [reflexivity |].
  apply returns_for_range. intros j Hj.
  destruct (index_in_range _ l j) as [pv [Hpv _]]; [lia |].
  eapply returns_bind_lift; [exact Hpv |].
  eapply returns_bind_lift; [exact Hl |].
  eapply returns_bind_lift; [reflexivity |].
  eapply returns_bind_lift; [exact Hpv |].
  apply returns_print.
Qed.

Lemma same_data_returns :
  forall data,
    data <> [] -> Forall readable data ->
    exists st, main data data run_init = (st, Ok tt).
Proof.
  intros data Hne Hdata.
  rewrite (main_phases data data (Nat.eqb_refl _)).
  assert (H : returns (bind (comparison_pass data data)
                            (fun _ => report data data))).
  { apply returns_bind; [exact (pass_returns data Hdata) | intros _].
    unfold report.
    apply returns_bind; [apply returns_print | intros _].
    apply returns_bind; [apply report_verdict_returns | intros _].
    destruct data as [| info rest]; [contradiction |].
    apply detail_returns. inversion Hdata; assumption. }
  destruct (H (pass_start data data)) as [st [[] Hst]].
  exists st. exact Hst.
Qed.

(** *** The records of the extractor *)

Lemma message_info_readable :
  forall i grb info,
    Extractor.message_info np_min np_max np_mean i grb = Ok info ->
    named grb -> plain_grid grb ->
    readable info /\ comparable info.
Proof.
  intros i grb info H [s Hs] Hgrid. unfold Extractor.message_info in H.
  destruct (Extractor.grb_values grb) as [| x xs]; [discriminate |].
  destruct (Extractor.spot_values _ _ _) as [spots |]; [| discriminate].
  destruct (Extractor.py_index (Extractor.lats grb) 0); [| discriminate].
  destruct (Extractor.py_index (Extractor.lons grb) 0); [| discriminate].
  destruct (Extractor.py_index (Extractor.lats grb) (-1)); [| discriminate].
  destruct (Extractor.py_index (Extractor.lons grb) (-1)); [| discriminate].
  cbn [rbind] in H. injection H as <-.
  assert (Hname : Extractor.safe_get grb "parameterName" VNone = VStr s).
  { unfold Extractor.safe_get. rewrite Hs. reflexivity. }
  split; [| destruct (Extractor.wants_all_values (S i)); exact Hgrid].
  unfold readable.
  destruct (Extractor.wants_all_values (S i)).
  - split; [exists s; rewrite <- Hname; reflexivity |].
    split; [intros key [<- | [<- | [<- | []]]]; eexists; reflexivity |].
    split; [eexists; reflexivity |]. split; [eexists; reflexivity |].
    intros _. eexists. reflexivity.
  - split; [exists s; rewrite <- Hname; reflexivity |].
    split; [intros key [<- | [<- | [<- | []]]]; eexists; reflexivity |].
    split; [eexists; reflexivity |]. split; [eexists; reflexivity |].
    intro Hc. discriminate Hc.
Qed.

Lemma extracted_records :
  forall grbs results,
    Extractor.main np_min np_max np_mean grbs = Ok results ->
    Forall named grbs -> Forall plain_grid grbs ->
    Forall readable results /\ Forall comparable results.
Proof.
  intros grbs results Hmain Hnamed Hgrid.
  rewrite Forall_forall in Hnamed, Hgrid.
  assert (H : forall info, In info results -> readable info /\ comparable info).
  { intros info Hin. apply In_nth_error in Hin. destruct Hin as [j Hj].
    destruct (extract_from_nth np_min np_max np_mean grbs 0 results Hmain
                j info Hj) as [grb [Hgrb Hinfo]].
    apply nth_error_In in Hgrb.
    exact (message_info_readable _ _ _ Hinfo (Hnamed _ Hgrb) (Hgrid _ Hgrb)). }
  split; apply Forall_forall; intros info Hin; apply (H info Hin).
Qed.

(** X18.  The two programs agree with each other: the payload the
    extractor prints for a file with at least one message, each with a
    parameter name and with grid shape and parameter indicator free of
    NaN, compared with itself, is read to the end without an error; the
    run records nothing and prints "ALL VALUES MATCH", even when the
    values of a message hold NaN or infinities. *)
Theorem extracted_payload_matches_itself :
  forall grbs results,
    Extractor.main np_min np_max np_mean grbs = Ok results ->
    grbs <> [] ->
    Forall named grbs ->
    Forall plain_grid grbs ->
    exists st,
      main results results run_init = (st, Ok tt)
      /\ found st = no_issues
      /\ In VerdictAllMatch (out st)
      /\ ~ In VerdictDiscrepancies (out st).
Proof.
  intros grbs results Hmain Hne Hnamed Hgrid.
  destruct (extracted_records grbs results Hmain Hnamed Hgrid) as [Hr Hc].
  assert (Hres : results <> []).
  { intros ->. apply Hne. apply length_zero_iff_nil.
    symmetry. exact (extract_from_length np_min np_max np_mean _ _ _ Hmain). }
  destruct (same_data_returns results Hres Hr) as [st Hst].
  destruct (same_data_run results st (Ok tt) Hc Hst) as [Hf [_ [Hd Ha]]].
  exists st. repeat split; try assumption. exact (Ha eq_refl).
Qed.

End CompositionFacts.


(** X17, an instance: the second record of a file of two messages. *)
Lemma record_describes_message_witness :
  exists results info,
    Samples.extract [Samples.sample_message; Samples.named_message]
    = Ok results
    /\ nth_error results 1 = Some info
    /\ get info "message" VNone = VNum (PInt 2)
    /\ get info "numValues" VNone = VNum (PInt 4).
Proof.
  destruct (Samples.extract [Samples.sample_message; Samples.named_message])
    as [results |] eqn:E; [| vm_compute in E; discriminate].
  destruct (nth_error results 1) as [info |] eqn:Ei.
  - exists results, info. split; [reflexivity |]. split; [exact Ei |].
    destruct (record_describes_message Samples.fold_min Samples.fold_max
                Samples.fold_mean _ results 1 info E Ei)
      as [grb [first [last [Hgrb [Hmsg [Hnum _]]]]]].
    split; [exact Hmsg |].
    injection Hgrb as <-. exact Hnum.
  - exfalso. vm_compute in E. injection E as <-. discriminate.
Defined.

(** X18, an instance: a file of two named messages, one with a NaN among
    its values. *)
Lemma extracted_payload_matches_itself_witness :
  exists results st,
    Samples.extract [Samples.named_message; Samples.named_message]
    = Ok results
    /\ Comparator.main results results Comparator.run_init = (st, Ok tt)
    /\ Comparator.found st = Comparator.no_issues
    /\ In Comparator.VerdictAllMatch (Comparator.out st).
Proof.
  destruct (Samples.extract [Samples.named_message; Samples.named_message])
    as [results |] eqn:E; [| vm_compute in E; discriminate].
  destruct (extracted_payload_matches_itself Samples.fold_min
              Samples.fold_max Samples.fold_mean
              [Samples.named_message; Samples.named_message] results E)
    as [st [Hst [Hf [Ha _]]]].
  - discriminate.
  - repeat constructor; exists "U-component of wind"%string; reflexivity.
  - repeat constructor.
  - exists results, st. repeat split; assumption.
Defined.

Section WindRangeFacts.

Import Wind Notions.
Local Open Scope R_scope.

Ltac order_cases :=
  repeat match goal with
         | |- context [Rlt_dec ?a ?b] => destruct (Rlt_dec a b); try lra
         | |- context [Rle_dec ?a ?b] => destruct (Rle_dec a b); try lra
         | |- context [Req_dec_T ?a ?b] => destruct (Req_dec_T a b); try lra
         end.

(** *** Signs *)

Lemma sign_of_cases :
  forall a,
    (value a < 0 /\ sign_of a = Negative)
    \/ (0 < value a /\ sign_of a = Positive)
    \/ (value a = 0 /\ is_zero a).
Proof.
  intros [| x]; unfold is_zero; simpl.
  - right. right. split; [reflexivity | right; reflexivity].
  - destruct (Rlt_dec x 0); [left; split; [assumption | reflexivity] |].
    destruct (Rlt_dec 0 x); [right; left; split; [assumption | reflexivity] |].
    right. right. split; [lra | left; reflexivity].
Qed.

Lemma sign_of_value :
  forall a,
    (sign_of a = Negative -> value a < 0)
    /\ (sign_of a = Positive -> 0 < value a).
Proof.
  intro a.
  destruct (sign_of_cases a) as [[H E] | [[H E] | [H [E | E]]]];
    rewrite E; split; intro; (assumption || discriminate).
Qed.


(** *** The range of [arctan2] and of the normalized bearing *)

















(** *** Winds along an axis *)





(** X22.  The ladder of lines 89-104 names the multiple of 45 degrees
    nearest to the direction, a direction half-way between two going to
    the higher one: within 22.5 degrees of [45 k], for [k] from 0 to 8,
    the name is the [k]-th of N, NE, E, SE, S, SW, W, NW, counted
    clockwise and round again to N at 360. *)
Theorem compass_names_nearest :
  forall d k,
    (k <= 8)%nat ->
    45 * INR k - 22.5 <= d < 45 * INR k + 22.5 ->
    compass (Real d) = nth (k mod 8) compass_names ""%string.
Proof.
  intros d k Hk Hd.
  do 9 (destruct k as [| k]; [clear Hk; cbn [INR] in Hd;
    unfold compass, Rleb, Rltb; cbn [value]; order_cases; reflexivity |]).
  lia.
Qed.

End WindRangeFacts.

Section SearchFacts.

Import Search Notions.

Lemma of_comparison_eq : forall c, of_comparison c = FEq -> c = Eq.
Proof. intros [| |]; simpl; congruence. Qed.

Lemma flip_comparison_eq : forall c, flip_comparison c = FEq -> c = FEq.
Proof. intros [| | |]; simpl; congruence. Qed.

Lemma Zcompare_SF_eq_unique :
  forall a b f,
    Zcompare_SF a f = FEq -> Zcompare_SF b f = FEq -> a = b.
Proof.
  intros a b [s | s | | s m e] Ha Hb; cbn [Zcompare_SF] in Ha, Hb.
  - apply of_comparison_eq, Z.compare_eq in Ha.
    apply of_comparison_eq, Z.compare_eq in Hb. congruence.
  - destruct s; discriminate.
  - discriminate.
  - apply of_comparison_eq in Ha. apply of_comparison_eq in Hb.
    destruct (Z.leb_spec 0 e) as [He | He].
    + apply Z.compare_eq in Ha. apply Z.compare_eq in Hb. congruence.
    + apply Z.compare_eq in Ha. apply Z.compare_eq in Hb.
      assert (Hp : (0 < 2 ^ (- e))%Z) by (apply Z.pow_pos_nonneg; lia).
      apply (Z.mul_cancel_r a b (2 ^ (- e))%Z); [lia | congruence].
Qed.

Lemma py_num_eq_int_unique :
  forall x a b,
    py_num_eq x (PInt a) = true -> py_num_eq x (PInt b) = true -> a = b.
Proof.
  intros [n | f] a b Ha Hb; unfold py_num_eq, py_compare in *.
  - destruct (of_comparison (n ?= a)%Z) eqn:Ea; try discriminate.
    destruct (of_comparison (n ?= b)%Z) eqn:Eb; try discriminate.
    apply of_comparison_eq, Z.compare_eq in Ea.
    apply of_comparison_eq, Z.compare_eq in Eb. congruence.
  - destruct (flip_comparison (Zcompare_SF a (Prim2SF f))) eqn:Ea;
      try discriminate.
    destruct (flip_comparison (Zcompare_SF b (Prim2SF f))) eqn:Eb;
      try discriminate.
    apply flip_comparison_eq in Ea. apply flip_comparison_eq in Eb.
    exact (Zcompare_SF_eq_unique a b _ Ea Eb).
Qed.

(** A record has one parameter indicator at most. *)
Lemma has_indicator_unique :
  forall a b msg,
    has_indicator a msg = true -> has_indicator b msg = true -> a = b.
Proof.
  intros a b msg Ha Hb. unfold has_indicator in *.
  destruct (get msg "indicatorOfParameter" VNone); try discriminate.
  exact (py_num_eq_int_unique _ a b Ha Hb).
Qed.

Lemma has_indicator_truth :
  forall id msg, has_indicator id msg = true -> dict_truth (Some msg) = true.
Proof. intros id [| kv msg] H; [discriminate | reflexivity]. Qed.

Lemma u_is_not_v :
  forall msg, has_indicator 33 msg = true -> has_indicator 34 msg = false.
Proof.
  intros msg H. destruct (has_indicator 34 msg) eqn:E; [| reflexivity].
  pose proof (has_indicator_unique _ _ _ H E). discriminate.
Qed.

Lemma held_or_first_skip :
  forall (A : Type) (test : A -> bool) held msg rest,
    test msg = false ->
    held_or_first held test (msg :: rest) = held_or_first held test rest.
Proof.
  intros A test [x |] msg rest H; [reflexivity |].
  cbn [held_or_first find]. rewrite H. reflexivity.
Qed.

Lemma held_or_first_hit :
  forall (A : Type) (test : A -> bool) msg rest tail,
    test msg = true ->
    held_or_first None test (msg :: rest)
    = held_or_first (Some msg) test tail.
Proof.
  intros A test msg rest tail H. cbn [held_or_first find]. rewrite H.
  reflexivity.
Qed.

Lemma held_when_true :
  forall (A : Type) (truth : option A -> bool) (test : A -> bool) held rest,
    truth None = false -> truth held = true ->
    held_or_first held test rest = held.
Proof.
  intros A truth test [x |] rest Hnone H; [reflexivity | congruence].
Qed.

(** One turn of the loop leaves what the search looks for unchanged. *)
Lemma pick_by_indicator_step :
  forall msg u_msg v_msg rest,
    held_or_first (fst (pick_by_indicator msg u_msg v_msg))
                  (has_indicator 33) rest
    = held_or_first u_msg (has_indicator 33) (msg :: rest)
    /\ held_or_first (snd (pick_by_indicator msg u_msg v_msg))
                     (has_indicator 34) rest
       = held_or_first v_msg (has_indicator 34) (msg :: rest).
Proof.
  intros msg u_msg v_msg rest. unfold pick_by_indicator.
  destruct (has_indicator 33 msg) eqn:Eu.
  - pose proof (u_is_not_v msg Eu) as Ev. rewrite Ev.
    destruct u_msg as [u |]; cbn [is_none andb fst snd].
    + rewrite (held_or_first_skip _ _ v_msg msg rest Ev). split; reflexivity.
    + rewrite (held_or_first_skip _ _ v_msg msg rest Ev).
      rewrite (held_or_first_hit _ _ msg rest rest Eu). split; reflexivity.
  - cbn [andb]. rewrite (held_or_first_skip _ _ u_msg msg rest Eu).
    destruct (has_indicator 34 msg) eqn:Ev.
    + destruct v_msg as [v |]; cbn [is_none andb fst snd].
      * split; reflexivity.
      * rewrite (held_or_first_hit _ _ msg rest rest Ev). split; reflexivity.
    + cbn [andb fst snd].
      rewrite (held_or_first_skip _ _ v_msg msg rest Ev). split; reflexivity.
Qed.

Lemma find_by_indicator_held :
  forall swift_data u_msg v_msg,
    find_by_indicator swift_data u_msg v_msg
    = (held_or_first u_msg (has_indicator 33) swift_data,
       held_or_first v_msg (has_indicator 34) swift_data).
Proof.
  induction swift_data as [| msg rest IH]; intros u_msg v_msg.
  - destruct u_msg, v_msg; reflexivity.
  - cbn [find_by_indicator].
    destruct (pick_by_indicator_step msg u_msg v_msg rest) as [Hu Hv].
    destruct (pick_by_indicator msg u_msg v_msg) as [u1 v1].
    cbn [fst snd] in Hu, Hv. rewrite <- Hu, <- Hv.
    destruct (dict_truth u1 && dict_truth v1)%bool eqn:Et; [| apply IH].
    apply andb_prop in Et. destruct Et as [Tu Tv].
    rewrite (held_when_true _ dict_truth _ u1 rest eq_refl Tu).
    rewrite (held_when_true _ dict_truth _ v1 rest eq_refl Tv).
    reflexivity.
Qed.

(** X23.  The search of verify_wind_direction.py ends with the first
    record whose parameter indicator equals 33 as the U message and the
    first whose indicator equals 34 as the V message, in whatever order
    the two come and whatever lies between them; a message that is not in
    the payload stays [None]. *)
Theorem find_by_indicator_first :
  forall swift_data,
    find_by_indicator swift_data None None
    = (find (has_indicator 33) swift_data,
       find (has_indicator 34) swift_data).
Proof. intro swift_data. apply find_by_indicator_held. Qed.

Lemma find_truth :
  forall id swift_data,
    dict_truth (find (has_indicator id) swift_data)
    = existsb (has_indicator id) swift_data.
Proof.
  intros id swift_data. induction swift_data as [| msg rest IH];
    [reflexivity |].
  cbn [find existsb]. destruct (has_indicator id msg) eqn:E.
  - exact (has_indicator_truth id msg E).
  - exact IH.
Qed.

(** X24.  The script goes past line 40 exactly when the payload holds a
    record with parameter indicator 33 and one with 34; otherwise it
    prints "Could not find U/V messages" and exits. *)
Theorem goes_on_iff_both :
  forall swift_data,
    goes_on (find_by_indicator swift_data None None)
    = existsb (has_indicator 33) swift_data
      && existsb (has_indicator 34) swift_data.
Proof.
  intro swift_data. rewrite find_by_indicator_held. unfold goes_on.
  cbn [fst snd held_or_first]. rewrite !find_truth.
  destruct (existsb _ _), (existsb _ _); reflexivity.
Qed.

Section Names.

Variable message : Type.
Variables is_u is_v truth : message -> bool.

Lemma pick_by_name_step :
  forall msg u_msg v_msg rest,
    held_or_first (fst (pick_by_name message is_u is_v msg u_msg v_msg))
                  is_u rest
    = held_or_first u_msg is_u (msg :: rest)
    /\ held_or_first (snd (pick_by_name message is_u is_v msg u_msg v_msg))
                     (fun m => is_v m && negb (is_u m)) rest
       = held_or_first v_msg (fun m => is_v m && negb (is_u m)) (msg :: rest).
Proof.
  intros msg u_msg v_msg rest. unfold pick_by_name.
  destruct (is_u msg) eqn:Eu; [| destruct (is_v msg) eqn:Ev];
    destruct u_msg as [u |], v_msg as [v |];
    cbn [is_none fst snd held_or_first find];
    rewrite ?Eu, ?Ev; cbn [andb negb]; rewrite ?andb_false_r;
    split; reflexivity.
Qed.

Lemma find_by_name_held :
  forall messages u_msg v_msg,
    find_by_name message is_u is_v truth messages u_msg v_msg
    = (held_or_first u_msg is_u messages,
       held_or_first v_msg (fun m => is_v m && negb (is_u m)) messages).
Proof.
  induction messages as [| msg rest IH]; intros u_msg v_msg.
  - destruct u_msg, v_msg; reflexivity.
  - cbn [find_by_name].
    destruct (pick_by_name_step msg u_msg v_msg rest) as [Hu Hv].
    destruct (pick_by_name message is_u is_v msg u_msg v_msg) as [u1 v1].
    cbn [fst snd] in Hu, Hv. rewrite <- Hu, <- Hv.
    destruct (message_truth message truth u1
              && message_truth message truth v1)%bool eqn:Et; [| apply IH].
    apply andb_prop in Et. destruct Et as [Tu Tv].
    rewrite (held_when_true _ (message_truth message truth) _ u1 rest
               eq_refl Tu).
    rewrite (held_when_true _ (message_truth message truth) _ v1 rest
               eq_refl Tv).
    reflexivity.
Qed.

(** X25.  The search of check_wind.py gives the test for U the first
    word: the U message is the first message that passes the test for U,
    the V message the first that passes the test for V and not the one
    for U, whatever the truth value of a message makes of the [break]. *)
Theorem find_by_name_first :
  forall messages,
    find_by_name message is_u is_v truth messages None None
    = (find is_u messages,
       find (fun m => is_v m && negb (is_u m)) messages).
Proof. intro messages. apply find_by_name_held. Qed.

End Names.

End SearchFacts.



(** X22, an instance: 100 degrees is nearest to 90, east. *)
Lemma compass_names_nearest_witness :
  Wind.compass (Wind.Real 100) = "E"%string.
Proof.
  apply (compass_names_nearest 100 2); [lia | simpl; lra].
Defined.

Section SpotFacts.

Import Extractor Notions.

Variables np_min np_max np_mean : list float -> float.

(** The decimal spelling of an index tells the index. *)
Lemma str_of_Z_inj : forall a b, str_of_Z a = str_of_Z b -> a = b.
Proof.
  intros a b H. unfold str_of_Z in H.
  assert (Hnil : forall z, Z.to_int z <> Decimal.Pos Decimal.Nil
                           /\ Z.to_int z <> Decimal.Neg Decimal.Nil).
  { intros [| p | p]; simpl; split; try discriminate;
      intro Hp; injection Hp as Hp;
      exact (DecimalPos.Unsigned.to_uint_nonnil p Hp). }
  apply DecimalZ.to_int_inj.
  assert (Hs : Some (Z.to_int a) = Some (Z.to_int b)).
  { rewrite <- (NilZero.isi (Z.to_int a)) by apply Hnil.
    rewrite <- (NilZero.isi (Z.to_int b)) by apply Hnil.
    rewrite H. reflexivity. }
  injection Hs as Hs. exact Hs.
Qed.

Lemma lookup_setitem_same :
  forall (A : Type) (d : list (string * A)) key v,
    lookup key (setitem d key v) = Some v.
Proof.
  intros A d key v. induction d as [| [k w] d IH]; simpl.
  - rewrite String.eqb_refl. reflexivity.
  - destruct (String.eqb k key) eqn:E; simpl; rewrite E;
      [reflexivity | exact IH].
Qed.

Lemma lookup_setitem_other :
  forall (A : Type) (d : list (string * A)) key key' v,
    key <> key' -> lookup key (setitem d key' v) = lookup key d.
Proof.
  intros A d key key' v Hne. induction d as [| [k w] d IH]; simpl.
  - destruct (String.eqb_spec key' key); [congruence | reflexivity].
  - destruct (String.eqb_spec k key') as [-> | Hk]; simpl.
    + destruct (String.eqb_spec key' key); [congruence | reflexivity].
    + destruct (String.eqb k key); [reflexivity | exact IH].
Qed.

Lemma setitem_length :
  forall (A : Type) (d : list (string * A)) key v,
    (List.length (setitem d key v) <= S (List.length d))%nat.
Proof.
  intros A d key v. induction d as [| [k w] d IH]; simpl; [lia |].
  destruct (String.eqb k key); simpl; lia.
Qed.

Lemma spots_of_setitem :
  forall values d idx v,
    spots_of values d ->
    py_index values idx = Ok v ->
    spots_of values (setitem d (str_of_Z idx) (PFloat v)).
Proof.
  intros values d idx v Hd Hv key a Hkey.
  destruct (String.eqb_spec key (str_of_Z idx)) as [-> | Hne].
  - rewrite lookup_setitem_same in Hkey. injection Hkey as <-.
    exists idx, v. repeat split. exact Hv.
  - rewrite lookup_setitem_other in Hkey by exact Hne.
    exact (Hd key a Hkey).
Qed.

(** What the comprehension of line 74 builds: the keys it was given stay,
    every entry is a value of the array under the spelling of its index,
    every index has its entry, and an index adds one entry at most. *)
Lemma spot_values_hold :
  forall values indices acc spots,
    spot_values values indices acc = Ok spots ->
    spots_of values acc ->
    spots_of values spots
    /\ (forall key, lookup key acc <> None -> lookup key spots <> None)
    /\ (forall idx, In idx indices -> lookup (str_of_Z idx) spots <> None)
    /\ (List.length spots <= List.length acc + List.length indices)%nat.
Proof.
  intros values indices.
  induction indices as [| idx rest IH]; intros acc spots H Hacc.
  - simpl in H. injection H as <-. repeat split.
    + exact Hacc.
    + intros key Hkey. exact Hkey.
    + intros idx [].
    + simpl. lia.
  - simpl in H. destruct (py_index values idx) as [v |] eqn:Ev;
      [| discriminate].
    simpl in H.
    destruct (IH _ _ H (spots_of_setitem _ _ _ _ Hacc Ev))
      as [Hspots [Hkeep [Hrest Hlen]]].
    repeat split.
    + exact Hspots.
    + intros key Hkey. apply Hkeep.
      destruct (String.eqb_spec key (str_of_Z idx)) as [-> | Hne].
      * rewrite lookup_setitem_same. discriminate.
      * rewrite lookup_setitem_other by exact Hne. exact Hkey.
    + intros i [<- | Hi]; [| exact (Hrest i Hi)].
      apply Hkeep. rewrite lookup_setitem_same. discriminate.
    + pose proof (setitem_length _ acc (str_of_Z idx) (PFloat v)).
      simpl. lia.
Qed.

Lemma message_info_spots :
  forall i grb info,
    message_info np_min np_max np_mean i grb = Ok info ->
    exists spots,
      get info "spotValues" VNone = VDict spots
      /\ spot_values (grb_values grb)
           (spot_indices (Z.of_nat (List.length (grb_values grb)))) []
         = Ok spots.
Proof.
  intros i grb info H. unfold message_info in H.
  destruct (grb_values grb) as [| x xs]; [discriminate |].
  destruct (spot_values _ _ _) as [spots |] eqn:Es; [| discriminate].
  destruct (py_index (lats grb) 0) as [first_lat |]; [| discriminate].
  destruct (py_index (lons grb) 0) as [first_lon |]; [| discriminate].
  destruct (py_index (lats grb) (-1)) as [last_lat |]; [| discriminate].
  destruct (py_index (lons grb) (-1)) as [last_lon |]; [| discriminate].
  cbn [rbind] in H. injection H as <-.
  exists spots. split; [| reflexivity].
  destruct (wants_all_values (S i)); reflexivity.
Qed.

(** X26.  The spot checks of a record: [spotValues] has an entry for each
    of the nine spot indices, under the decimal spelling of the index and
    holding the value of the message at that index; it holds nothing
    else, so it has nine entries at most, fewer when two spot indices
    coincide. *)
Theorem spot_values_of_record :
  forall grbs results j info,
    main np_min np_max np_mean grbs = Ok results ->
    nth_error results j = Some info ->
    exists grb spots,
      nth_error grbs j = Some grb
      /\ get info "spotValues" VNone = VDict spots
      /\ (forall idx,
            In idx (spot_indices (Z.of_nat (List.length (grb_values grb)))) ->
            exists v,
              py_index (grb_values grb) idx = Ok v
              /\ lookup (str_of_Z idx) spots = Some (PFloat v))
      /\ spots_of (grb_values grb) spots
      /\ (List.length spots <= 9)%nat.
Proof.
  intros grbs results j info Hmain Hj. unfold main in Hmain.
  destruct (extract_from_nth np_min np_max np_mean grbs 0 results Hmain
              j info Hj) as [grb [Hgrb Hinfo]].
  destruct (message_info_spots j grb info Hinfo) as [spots [Hget Hs]].
  assert (Hempty : spots_of (grb_values grb) []).
  { intros key a Hkey. discriminate. }
  destruct (spot_values_hold _ _ _ _ Hs Hempty)
    as [Hspots [_ [Hall Hlen]]].
  exists grb, spots. repeat split; try assumption.
  intros idx Hidx. specialize (Hall idx Hidx).
  destruct (lookup (str_of_Z idx) spots) as [a |] eqn:Ea; [| contradiction].
  destruct (Hspots _ _ Ea) as [idx' [v [Hkey [Hv ->]]]].
  apply str_of_Z_inj in Hkey. subst idx'.
  exists v. split; [exact Hv | reflexivity].
Qed.

End SpotFacts.

(** X26, an instance: on four values the nine spot indices are 0, 1, 2, 1,
    2, 3, 1, 2 and 3, and the record has four spot values. *)
Lemma spot_values_of_record_witness :
  exists info spots,
    Samples.extract [Samples.sample_message] = Ok [info]
    /\ get info "spotValues" VNone = VDict spots
    /\ lookup "3" spots = Some (PFloat 3)
    /\ (List.length spots <= 9)%nat.
Proof.
  destruct (Samples.extract [Samples.sample_message])
    as [results |] eqn:E; [| vm_compute in E; discriminate].
  destruct results as [| info [| other rest]];
    try (exfalso; vm_compute in E; discriminate).
  destruct (spot_values_of_record Samples.fold_min Samples.fold_max
              Samples.fold_mean _ _ 0%nat info E eq_refl)
    as [grb [spots [Hgrb [Hget [Hall [_ Hlen]]]]]].
  injection Hgrb as <-.
  destruct (Hall 3%Z) as [v [Hv Hlook]].
  { vm_compute. tauto. }
  injection Hv as <-.
  exists info, spots. repeat split; assumption.
Defined.

Section TableFacts.

Import Wind Table Notions.
Local Open Scope R_scope.






End TableFacts.
